(** * Agentic-Memory: memory tiers and orchestrator, embedded from the Python sources

    The development follows the layout of the repository:
    - [Py]          the fragments of Python's built-in behaviour the code relies on
                    (truthiness, slicing, [str.strip], [str.split], [str.lower], ...);
    - [Working]     src/memory/working.py
    - [Procedural]  src/memory/procedural.py
    - [Episodic]    src/memory/episodic.py
    - [Semantic]    src/memory/semantic.py
    - [Agent]       src/agent/core.py
    - [State]       src/core/models/state.py
    - [Lifecycle]   the end of a conversation, src/agent/conversation.py and the
                    route [clear_memory] of src/api/routes.py

    Python [str] values are modelled as [string]; a character stands for the code
    point of the same number (0..255).  Python [int] values are [Z].  A method that
    changes its object returns the new object; a method that can raise returns a
    [Result], next to the object as the exception leaves it.  Every method of the
    four memories is an [async def]; a definition gives the effect of awaiting the
    call. *)

From Stdlib Require Import ZArith Ascii String DecimalString Sorting.Sorted Sorting.Permutation.
From stdpp Require Import base list strings gmap.

Open Scope Z_scope.

(** ** Outcomes of fallible operations *)

Inductive Exn : Type :=
| WorkingMemoryError (msg : string)
| ProceduralMemoryError (msg : string)
| EpisodicMemoryError (msg : string)
| SemanticMemoryError (msg : string)
| AttributeError (msg : string)
| ExternalError (msg : string).

Inductive Result (A : Type) : Type :=
| Ok (a : A)
| Err (e : Exn).
Arguments Ok {A} a.
Arguments Err {A} e.

(** [str(e)] of a caught exception. *)
Definition exn_text (e : Exn) : string :=
  match e with
  | WorkingMemoryError m | ProceduralMemoryError m | EpisodicMemoryError m
  | SemanticMemoryError m | AttributeError m | ExternalError m => m
  end.

(** ** Python built-ins *)

Module Py.

(** [l[i:]] for a list [l] and an int [i] (negative indices count from the end,
    out-of-range indices are clamped). *)
Definition clamp_index (len i : Z) : Z :=
  if i <? 0 then Z.max (len + i) 0 else Z.min i len.

Definition slice_from {A} (l : list A) (i : Z) : list A :=
  drop (Z.to_nat (clamp_index (Z.of_nat (length l)) i)) l.

(** [l[:i]] *)
Definition slice_to {A} (l : list A) (i : Z) : list A :=
  take (Z.to_nat (clamp_index (Z.of_nat (length l)) i)) l.

(** truth value of an int *)
Definition truthy_int (n : Z) : bool := negb (n =? 0).

(** truth value of an [Optional[int]] *)
Definition truthy_opt_int (o : option Z) : bool :=
  match o with
  | Some n => truthy_int n
  | None => false
  end.

(** truth value of a str *)
Definition truthy_str (s : string) : bool :=
  match s with
  | EmptyString => false
  | String _ _ => true
  end.

(** truth value of a list *)
Definition truthy_list {A} (l : list A) : bool :=
  match l with
  | [] => false
  | _ :: _ => true
  end.

Definition LF : ascii := ascii_of_nat 10.
Definition nl : string := String LF EmptyString.

(** [str.isspace] on one character, which is also the class [\s] of [re]:
    TAB..CR, FS..US, space, NEL and NBSP among the code points below 256. *)
Definition is_space (c : ascii) : bool :=
  let n := N_of_ascii c in
  (((9 <=? n) && (n <=? 13)) || ((28 <=? n) && (n <=? 32))
   || (n =? 133) || (n =? 160))%N.

(** [str.isdecimal] on one character, the class [\d] of [re]. *)
Definition is_decimal (c : ascii) : bool :=
  let n := N_of_ascii c in ((48 <=? n) && (n <=? 57))%N.

Fixpoint drop_while (p : ascii -> bool) (s : string) : string :=
  match s with
  | EmptyString => EmptyString
  | String c r => if p c then drop_while p r else s
  end.

Definition lstrip (s : string) : string := drop_while is_space s.
Definition rstrip (s : string) : string := String.rev (lstrip (String.rev s)).

(** [s.strip()] *)
Definition strip (s : string) : string := rstrip (lstrip s).

(** [s.split(sep)] for a one-character separator: never the empty list. *)
Fixpoint split (sep : ascii) (s : string) : list string :=
  match s with
  | EmptyString => [EmptyString]
  | String c r =>
      if Ascii.eqb c sep then EmptyString :: split sep r
      else match split sep r with
           | h :: t => String c h :: t
           | [] => [String c EmptyString]
           end
  end.

Fixpoint drop_chars (n : nat) (s : string) : string :=
  match n, s with
  | O, _ => s
  | S n', String _ r => drop_chars n' r
  | S _, EmptyString => EmptyString
  end.

(** The text before and after the leftmost occurrence of [sep] in [s]:
    [Some (a, b)] when [sep in s], and then [s.split(sep, 1) == [a, b]]. *)
Fixpoint partition (sep s : string) : option (string * string) :=
  if String.prefix sep s then Some (EmptyString, drop_chars (String.length sep) s)
  else match s with
       | EmptyString => None
       | String c r =>
           match partition sep r with
           | Some (a, b) => Some (String c a, b)
           | None => None
           end
       end.

(** [sep.join(parts)] *)
Fixpoint join (sep : string) (parts : list string) : string :=
  match parts with
  | [] => EmptyString
  | [x] => x
  | x :: rest => x +:+ sep +:+ join sep rest
  end.

(** [c.lower()] on one character below 256: A..Z and the capital letters of
    Latin-1 (all of 0xC0..0xDE but the multiplication sign 0xD7). *)
Definition lower_char (c : ascii) : ascii :=
  let n := N_of_ascii c in
  if (((65 <=? n) && (n <=? 90))
      || ((192 <=? n) && (n <=? 222) && negb (n =? 215)))%N
  then ascii_of_N (n + 32) else c.

Fixpoint lower (s : string) : string :=
  match s with
  | EmptyString => EmptyString
  | String c r => String (lower_char c) (lower r)
  end.

(** [str(n)] for an int. *)
Definition str_of_int (n : Z) : string :=
  DecimalString.NilZero.string_of_int (Z.to_int n).

(** [enumerate(l, start)] *)
Fixpoint enumerate {A} (l : list A) (start : Z) : list (Z * A) :=
  match l with
  | [] => []
  | x :: r => (start, x) :: enumerate r (start + 1)
  end.

(** [sub in s] for two str. *)
Definition contains (sub s : string) : bool :=
  match partition sub s with
  | Some _ => true
  | None => false
  end.

(** [c in s] for a character. *)
Fixpoint has_char (c : ascii) (s : string) : bool :=
  match s with
  | EmptyString => false
  | String x r => Ascii.eqb x c || has_char c r
  end.

Definition CR : ascii := ascii_of_nat 13.

(** What reading a file in text mode makes of its content ([open] with
    [newline=None], as [Path.read_text] does): a CR LF pair and a lone CR
    each come back as one LF. *)
Fixpoint universal_newlines (s : string) : string :=
  match s with
  | EmptyString => EmptyString
  | String c r =>
      if Ascii.eqb c CR then
        match r with
        | String c' r' =>
            if Ascii.eqb c' LF then String LF (universal_newlines r')
            else String LF (universal_newlines r)
        | EmptyString => String LF EmptyString
        end
      else String c (universal_newlines r)
  end.

(** The last character of [s] is not white space. *)
Definition ends_nonspace (s : string) : Prop :=
  exists t c, s = t +:+ String c EmptyString /\ is_space c = false.

(** Python values as they come out of a JSON document or a property map. *)
#[warnings="-register-all"]
Inductive Value : Type :=
| VNone
| VBool (b : bool)
| VInt (n : Z)
| VFloat (repr : string)
| VStr (s : string)
| VList (items : list Value)
| VDict (items : list (string * Value)).

End Py.

(** A top-level [dict] with str keys; [d !! k] is [None] when the key is absent. *)
Abbreviation Dict := (gmap string Py.Value).

(** [d.get(key, default)] *)
Definition dict_get (d : Dict) (key : string) (default : Py.Value) : Py.Value :=
  match d !! key with
  | Some v => v
  | None => default
  end.

(** ** src/memory/working.py *)

Module Working.

(** The message classes of langchain_core the code tests with [isinstance];
    [OtherMessage] stands for the subclasses of [BaseMessage] that derive
    from none of the three.  A message is of one of these classes itself:
    the chunk classes, which derive from them but carry another [type], are
    not among the messages of this development. *)
Inductive MessageType : Type :=
| SystemMessage
| HumanMessage
| AIMessage
| OtherMessage.

Definition MessageType_eqb (a b : MessageType) : bool :=
  match a, b with
  | SystemMessage, SystemMessage
  | HumanMessage, HumanMessage
  | AIMessage, AIMessage
  | OtherMessage, OtherMessage => true
  | _, _ => false
  end.

Record BaseMessage : Type := mkMessage {
  msg_type : MessageType;
  content : string
}.

Definition isinstance (m : BaseMessage) (t : MessageType) : bool :=
  MessageType_eqb (msg_type m) t.

Record Metadata : Type := mkMetadata {
  total_messages : Z;
  system_prompts : Z;
  user_messages : Z;
  ai_messages : Z
}.

Record WorkingMemory : Type := mkWorkingMemory {
  _messages : list BaseMessage;
  max_size : option Z;
  _metadata : Metadata
}.

Definition zero_metadata : Metadata :=
  {| total_messages := 0; system_prompts := 0; user_messages := 0; ai_messages := 0 |}.

(** [WorkingMemory.__init__] *)
Definition init (max_size : option Z) : WorkingMemory :=
  {| _messages := []; max_size := max_size; _metadata := zero_metadata |}.

(** [WorkingMemory._update_metadata] *)
Definition _update_metadata (md : Metadata) (message : BaseMessage) : Metadata :=
  let total := total_messages md + 1 in
  if isinstance message SystemMessage then
    {| total_messages := total; system_prompts := system_prompts md + 1;
       user_messages := user_messages md; ai_messages := ai_messages md |}
  else if isinstance message HumanMessage then
    {| total_messages := total; system_prompts := system_prompts md;
       user_messages := user_messages md + 1; ai_messages := ai_messages md |}
  else if isinstance message AIMessage then
    {| total_messages := total; system_prompts := system_prompts md;
       user_messages := user_messages md; ai_messages := ai_messages md + 1 |}
  else
    {| total_messages := total; system_prompts := system_prompts md;
       user_messages := user_messages md; ai_messages := ai_messages md |}.

(** [WorkingMemory.store]: append, count, then trim to the last [max_size]
    messages.  Nothing in the body raises, so the [except] branch is dead. *)
Definition store (wm : WorkingMemory) (message : BaseMessage) : WorkingMemory :=
  let messages := _messages wm ++ [message] in
  let md := _update_metadata (_metadata wm) message in
  let trimmed :=
    match max_size wm with
    | Some n =>
        if Py.truthy_int n && (n <? Z.of_nat (length messages))
        then Py.slice_from messages (- n)
        else messages
    | None => messages
    end in
  {| _messages := trimmed; max_size := max_size wm; _metadata := md |}.

Definition store_user (wm : WorkingMemory) (content : string) : WorkingMemory :=
  store wm (mkMessage HumanMessage content).

Definition store_ai (wm : WorkingMemory) (content : string) : WorkingMemory :=
  store wm (mkMessage AIMessage content).

Definition store_system (wm : WorkingMemory) (content : string) : WorkingMemory :=
  store wm (mkMessage SystemMessage content).

Definition semantic_prefix : string := "[SEMANTIC CONTEXT]" +:+ Py.nl.

Definition store_semantic (wm : WorkingMemory) (content : string) : WorkingMemory :=
  store wm (mkMessage HumanMessage (semantic_prefix +:+ content)).

(** The keyword arguments [retrieve] looks at. *)
Record RetrieveKwargs : Type := mkKwargs {
  kw_limit : option Z;
  kw_type : option string
}.

Definition of_type (t : MessageType) (messages : list BaseMessage) : list BaseMessage :=
  List.filter (fun m => isinstance m t) messages.

(** [WorkingMemory.retrieve]: the query is ignored; filter by type, then keep
    the last [limit] messages when [limit] is truthy. *)
Definition retrieve (wm : WorkingMemory) (kwargs : RetrieveKwargs) : list BaseMessage :=
  let messages := _messages wm in
  let messages :=
    match kw_type kwargs with
    | Some msg_type =>
        if Py.truthy_str msg_type then
          if String.eqb (Py.lower msg_type) "system" then of_type SystemMessage messages
          else if String.eqb (Py.lower msg_type) "user" then of_type HumanMessage messages
          else if String.eqb (Py.lower msg_type) "ai" then of_type AIMessage messages
          else messages
        else messages
    | None => messages
    end in
  match kw_limit kwargs with
  | Some limit =>
      if Py.truthy_int limit then Py.slice_from messages (- limit) else messages
  | None => messages
  end.

Definition not_system (messages : list BaseMessage) : list BaseMessage :=
  List.filter (fun m => negb (isinstance m SystemMessage)) messages.

(** [WorkingMemory.get_context] *)
Definition get_context (wm : WorkingMemory) (limit : option Z) (exclude_system : bool)
  : list BaseMessage :=
  let messages := if exclude_system then not_system (_messages wm) else _messages wm in
  if Py.truthy_opt_int limit
  then Py.slice_from messages (- default 0 limit)
  else messages.

(** [WorkingMemory.get_messages], once awaited. *)
Definition get_messages (wm : WorkingMemory) (exclude_system : bool) : list BaseMessage :=
  if exclude_system then not_system (_messages wm) else _messages wm.

(** [WorkingMemory.clear] *)
Definition clear (wm : WorkingMemory) : WorkingMemory :=
  {| _messages := []; max_size := max_size wm; _metadata := zero_metadata |}.

(** One turn of the loop of [remove_last] over a removed message. *)
Definition forget (md : Metadata) (msg : BaseMessage) : Metadata :=
  let total := total_messages md - 1 in
  if isinstance msg SystemMessage then
    {| total_messages := total; system_prompts := system_prompts md - 1;
       user_messages := user_messages md; ai_messages := ai_messages md |}
  else if isinstance msg HumanMessage then
    {| total_messages := total; system_prompts := system_prompts md;
       user_messages := user_messages md - 1; ai_messages := ai_messages md |}
  else if isinstance msg AIMessage then
    {| total_messages := total; system_prompts := system_prompts md;
       user_messages := user_messages md; ai_messages := ai_messages md - 1 |}
  else
    {| total_messages := total; system_prompts := system_prompts md;
       user_messages := user_messages md; ai_messages := ai_messages md |}.

(** [WorkingMemory.remove_last] *)
Definition remove_last (wm : WorkingMemory) (n : Z) : WorkingMemory :=
  if (0 <? n) && (n <=? Z.of_nat (length (_messages wm))) then
    let removed := Py.slice_from (_messages wm) (- n) in
    {| _messages := Py.slice_to (_messages wm) (- n);
       max_size := max_size wm;
       _metadata := fold_left forget removed (_metadata wm) |}
  else wm.

(** [WorkingMemory.get_metadata], without the float [utilization]. *)
Definition current_size (wm : WorkingMemory) : Z := Z.of_nat (length (_messages wm)).

(** The operations that change a working memory. *)
Inductive Op : Type :=
| OpStore (message : BaseMessage)
| OpStoreUser (content : string)
| OpStoreAi (content : string)
| OpStoreSystem (content : string)
| OpStoreSemantic (content : string)
| OpClear
| OpRemoveLast (n : Z).

Definition apply (wm : WorkingMemory) (op : Op) : WorkingMemory :=
  match op with
  | OpStore m => store wm m
  | OpStoreUser c => store_user wm c
  | OpStoreAi c => store_ai wm c
  | OpStoreSystem c => store_system wm c
  | OpStoreSemantic c => store_semantic wm c
  | OpClear => clear wm
  | OpRemoveLast n => remove_last wm n
  end.

Definition run (wm : WorkingMemory) (ops : list Op) : WorkingMemory :=
  fold_left apply ops wm.

(** The number of stored messages of class [t], by scanning the list. *)
Definition count_type (t : MessageType) (wm : WorkingMemory) : Z :=
  Z.of_nat (length (of_type t (_messages wm))).

(** The counters agree with the stored list. *)
Definition counters_consistent (wm : WorkingMemory) : Prop :=
  total_messages (_metadata wm) = Z.of_nat (length (_messages wm))
  /\ system_prompts (_metadata wm) = count_type SystemMessage wm
  /\ user_messages (_metadata wm) = count_type HumanMessage wm
  /\ ai_messages (_metadata wm) = count_type AIMessage wm.

(** [WorkingMemory.search] *)
Definition search (wm : WorkingMemory) (keyword : string) : list BaseMessage :=
  List.filter (fun m => Py.contains (Py.lower keyword) (Py.lower (content m)))
    (_messages wm).

(** [WorkingMemory.get_last_user_message]: the first [HumanMessage] met when
    walking the list backwards. *)
Definition get_last_user_message (wm : WorkingMemory) : option BaseMessage :=
  List.find (fun msg => isinstance msg HumanMessage) (rev (_messages wm)).

(** [WorkingMemory.get_last_ai_message] *)
Definition get_last_ai_message (wm : WorkingMemory) : option BaseMessage :=
  List.find (fun msg => isinstance msg AIMessage) (rev (_messages wm)).

(** [WorkingMemory.__len__] *)
Definition len (wm : WorkingMemory) : Z := Z.of_nat (length (_messages wm)).

(** The next [store] will not evict: there is no capacity, or the list is
    shorter than the capacity. *)
Definition has_room (wm : WorkingMemory) : Prop :=
  match max_size wm with
  | Some n => n = 0 \/ Z.of_nat (length (_messages wm)) < n
  | None => True
  end.

(** The message an appending operation stores. *)
Definition appended (op : Op) : option BaseMessage :=
  match op with
  | OpStore m => Some m
  | OpStoreUser c => Some (mkMessage HumanMessage c)
  | OpStoreAi c => Some (mkMessage AIMessage c)
  | OpStoreSystem c => Some (mkMessage SystemMessage c)
  | OpStoreSemantic c => Some (mkMessage HumanMessage (semantic_prefix +:+ c))
  | OpClear | OpRemoveLast _ => None
  end.

(** The counters a scan of [l] gives. *)
Definition counts (l : list BaseMessage) : Metadata :=
  {| total_messages := Z.of_nat (length l);
     system_prompts := Z.of_nat (length (of_type SystemMessage l));
     user_messages := Z.of_nat (length (of_type HumanMessage l));
     ai_messages := Z.of_nat (length (of_type AIMessage l)) |}.

End Working.

(** ** The completion capability ([ChatOpenAI]) *)

Module Llm.

(** Calling an [async def] without [await] gives a coroutine object: its body
    has not run. *)
Inductive Coroutine (A : Type) : Type :=
| coroutine (body : unit -> A).
Arguments coroutine {A} body.

(** What a call site passes to [llm.ainvoke]. *)
Inductive Input : Type :=
| InputStr (prompt : string)
| InputMessages (messages : list Working.BaseMessage)
| InputCoroutine (pending : Coroutine (list Working.BaseMessage)).

(** [await llm.ainvoke(input)] read at [.content]: the reply text, or the
    exception of the call. *)
Definition ChatModel : Type := Input -> Result string.

(** The stand-in of the test suite ([AsyncMock]): one reply, whatever it is
    called with. *)
Definition mock (reply : string) : ChatModel := fun _ => Ok reply.

End Llm.

(** ** src/memory/procedural.py *)

Module Procedural.

(** [ProceduralRule] of src/core/models/memory.py.  The field [created_at]
    (wall-clock time of construction) is read nowhere and is left out. *)
Record ProceduralRule : Type := mkRule {
  index : Z;
  instruction : string;
  rationale : string;
  category : option string
}.

(** The rule file at [settings.PROCEDURAL_MEMORY_PATH]: its content when it
    exists (the text as [write_text] was given it: on POSIX a line break is
    written as it is), whether the path can be written, and how often it was
    written. *)
Record RuleFile : Type := mkFile {
  text : option string;
  writable : bool;
  writes : nat
}.

Record ProceduralMemory : Type := mkProcedural {
  rules : list ProceduralRule;
  file_path : RuleFile;
  last_updated : option Z
}.

Definition set_rules (pm : ProceduralMemory) (rs : list ProceduralRule) : ProceduralMemory :=
  {| rules := rs; file_path := file_path pm; last_updated := last_updated pm |}.

Definition set_last_updated (pm : ProceduralMemory) (now : Z) : ProceduralMemory :=
  {| rules := rules pm; file_path := file_path pm; last_updated := Some now |}.

(** [ProceduralMemory.__init__] *)
Definition init (f : RuleFile) : ProceduralMemory :=
  {| rules := []; file_path := f; last_updated := None |}.

(** [re.sub(r'^\d+\.\s*', '', line)]: a run of digits at the start, a dot and
    the white space after it are removed; any other line is unchanged. *)
Definition strip_numbering (line : string) : string :=
  match line with
  | String c _ =>
      if Py.is_decimal c then
        match Py.drop_while Py.is_decimal line with
        | String "."%char rest => Py.drop_while Py.is_space rest
        | _ => line
        end
      else line
  | EmptyString => line
  end.

(** [instruction, rationale = line.split(' - ', 1)] when [' - ' in line]. *)
Definition split_rule (line : string) : string * string :=
  match Py.partition " - " line with
  | Some (instruction, rationale) => (instruction, rationale)
  | None => (line, EmptyString)
  end.

(** The loop of [_parse_rules] over the remaining lines, [rules] being the
    list built so far. *)
Fixpoint parse_lines (lines : list string) (rules : list ProceduralRule)
  : list ProceduralRule :=
  match lines with
  | [] => rules
  | line :: rest =>
      let line := Py.strip line in
      if negb (Py.truthy_str line) then parse_lines rest rules
      else
        let line := strip_numbering line in
        let '(instruction, rationale) := split_rule line in
        parse_lines rest
          (rules ++ [ {| index := Z.of_nat (length rules) + 1;
                         instruction := Py.strip instruction;
                         rationale := Py.strip rationale;
                         category := None |} ])
  end.

(** [ProceduralMemory._parse_rules] *)
Definition _parse_rules (text : string) : list ProceduralRule :=
  parse_lines (Py.split Py.LF (Py.strip text)) [].

Definition default_rules : list string :=
  [ "Maintain conversation context by recalling previous interactions - Builds rapport and shows attention to user preferences over time.";
    "Use clear and concise language to convey information - Enhances understanding and avoids confusion.";
    "Offer structured breakdowns for complex topics - Facilitates comprehension and highlights key roles and functions.";
    "Ask clarifying questions when user requests are ambiguous - Ensures accurate assistance and reduces misunderstandings.";
    "Provide step-by-step guidance for complex tasks - Facilitates user comprehension and successful task completion.";
    "Acknowledge user emotions and respond empathetically - Builds trust and rapport with the user.";
    "Confirm and repeat the user's name to acknowledge recognition - Reinforces a personal connection and shows attentiveness.";
    "Offer alternative solutions when initial suggestions are not feasible - Demonstrates flexibility and commitment to user satisfaction.";
    "Provide specific suggestions tailored to the user's stated preferences - Shows attentiveness to user needs and enhances satisfaction.";
    "Continuously learn from user feedback to improve response quality - Enhances overall effectiveness and user experience." ].

(** [ProceduralMemory._get_default_rules] *)
Definition _get_default_rules : list ProceduralRule :=
  map (fun '(i, rule_text) =>
         let '(instruction, rationale) := split_rule rule_text in
         {| index := i; instruction := Py.strip instruction;
            rationale := Py.strip rationale; category := None |})
      (Py.enumerate default_rules 1).

(** One line of the rule file. *)
Definition rule_line (rule : ProceduralRule) : string :=
  let line := Py.str_of_int (index rule) +:+ ". " +:+ instruction rule in
  if Py.truthy_str (rationale rule) then line +:+ " - " +:+ rationale rule else line.

(** [ProceduralMemory._save_rules]: the whole rule list overwrites the file;
    a failing write raises and leaves the in-memory list as it is. *)
Definition _save_rules (pm : ProceduralMemory) : ProceduralMemory * Result unit :=
  let f := file_path pm in
  if writable f then
    ({| rules := rules pm;
        file_path := {| text := Some (Py.join Py.nl (map rule_line (rules pm)));
                        writable := true; writes := S (writes f) |};
        last_updated := last_updated pm |}, Ok tt)
  else
    (pm, Err (ProceduralMemoryError "Failed to save rules: [Errno 13] Permission denied")).

Definition wrap {A} (prefix : string) (r : Result A) : Result A :=
  match r with
  | Ok a => Ok a
  | Err e => Err (ProceduralMemoryError (prefix +:+ exn_text e))
  end.

(** [ProceduralMemory.initialize]; [read_text] reads in text mode. *)
Definition initialize (now : Z) (pm : ProceduralMemory) : ProceduralMemory * Result unit :=
  match text (file_path pm) with
  | Some written =>
      let content := Py.universal_newlines written in
      (set_last_updated (set_rules pm (_parse_rules content)) now, Ok tt)
  | None =>
      match _save_rules (set_rules pm _get_default_rules) with
      | (pm', Ok _) => (set_last_updated pm' now, Ok tt)
      | (pm', Err e) =>
          (pm', wrap "Failed to initialize procedural memory: " (Err e))
      end
  end.

(** The argument of [store]: a [ProceduralRule], or a dict handed to the
    constructor of [ProceduralRule], which validates it or raises. *)
Inductive RuleData : Type :=
| IsRule (rule : ProceduralRule)
| FromDict (validated : option ProceduralRule).

(** [ProceduralMemory.store] *)
Definition store (pm : ProceduralMemory) (data : RuleData) : ProceduralMemory * Result unit :=
  let built :=
    match data with
    | IsRule rule => Some rule
    | FromDict validated => validated
    end in
  match built with
  | None =>
      (pm, Err (ProceduralMemoryError
                  "Failed to store procedural rule: validation error for ProceduralRule"))
  | Some rule =>
      match _save_rules (set_rules pm (rules pm ++ [rule])) with
      | (pm', Ok _) => (pm', Ok tt)
      | (pm', Err e) => (pm', wrap "Failed to store procedural rule: " (Err e))
      end
  end.

Definition display_line (entry : Z * ProceduralRule) : string :=
  let '(i, rule) := entry in
  Py.str_of_int i +:+ ". " +:+ instruction rule +:+ " - " +:+ rationale rule.

(** [ProceduralMemory.retrieve] *)
Definition retrieve (pm : ProceduralMemory) : string :=
  if negb (Py.truthy_list (rules pm)) then EmptyString
  else Py.join Py.nl (map display_line (Py.enumerate (rules pm) 1)).

Definition feedback_items (items : list string) : string :=
  Py.join Py.nl
    (map (fun item => "- " +:+ item)
       (List.filter (fun item => Py.truthy_str item && negb (String.eqb item "N/A")) items)).

Definition dq : string := String (ascii_of_nat 34) EmptyString.

(** [ProceduralMemory._create_update_prompt] *)
Definition _create_update_prompt (pm : ProceduralMemory) (what_worked what_to_avoid : list string)
  : string :=
  let current_rules := Py.join Py.nl (map display_line (Py.enumerate (rules pm) 1)) in
  let worked := feedback_items what_worked in
  let avoided := feedback_items what_to_avoid in
  "You are maintaining a continuously updated list of the most important procedural behavior instructions for an AI assistant. Your task is to refine and improve a list of key takeaways based on new conversation feedback while maintaining the most valuable existing insights."
  +:+ Py.nl +:+ Py.nl
  +:+ "CURRENT RULES:" +:+ Py.nl
  +:+ current_rules +:+ Py.nl +:+ Py.nl
  +:+ "NEW FEEDBACK:" +:+ Py.nl
  +:+ "What Worked Well:" +:+ Py.nl
  +:+ worked +:+ Py.nl +:+ Py.nl
  +:+ "What To Avoid:" +:+ Py.nl
  +:+ avoided +:+ Py.nl +:+ Py.nl
  +:+ "Please generate an updated list of up to 10 key takeaways that combines:" +:+ Py.nl
  +:+ "1. The most valuable insights from the current takeaways" +:+ Py.nl
  +:+ "2. New learnings from the recent feedback" +:+ Py.nl
  +:+ "3. Any synthesized insights combining multiple learnings" +:+ Py.nl +:+ Py.nl
  +:+ "Requirements for each takeaway:" +:+ Py.nl
  +:+ "- Must be specific and actionable" +:+ Py.nl
  +:+ "- Should address a distinct aspect of behavior" +:+ Py.nl
  +:+ "- Include a clear rationale" +:+ Py.nl
  +:+ "- Written in imperative form (e.g., " +:+ dq
  +:+ "Maintain conversation context by..." +:+ dq +:+ ")" +:+ Py.nl +:+ Py.nl
  +:+ "Format each takeaway as:" +:+ Py.nl
  +:+ "[#]. [Instruction] - [Brief rationale]" +:+ Py.nl +:+ Py.nl
  +:+ "Return only the list, no preamble or explanation.".

(** [ProceduralMemory.update]: ask the model for a new list; replace and save
    the rules only when at least one rule was parsed. *)
Definition update (llm : Llm.ChatModel) (now : Z) (pm : ProceduralMemory)
    (what_worked what_to_avoid : list string) : ProceduralMemory * Result unit :=
  let prompt := _create_update_prompt pm what_worked what_to_avoid in
  match llm (Llm.InputStr prompt) with
  | Err e => (pm, wrap "Failed to update procedural memory: " (Err e))
  | Ok result_content =>
      let new_rules_text := Py.strip result_content in
      let new_rules := _parse_rules new_rules_text in
      if Py.truthy_list new_rules then
        match _save_rules (set_rules pm (take 10 new_rules)) with
        | (pm', Ok _) => (set_last_updated pm' now, Ok tt)
        | (pm', Err e) => (pm', wrap "Failed to update procedural memory: " (Err e))
        end
      else (pm, Ok tt)
  end.

(** [ProceduralMemory.clear] *)
Definition clear (pm : ProceduralMemory) : ProceduralMemory * Result unit :=
  _save_rules (set_rules pm []).

(** [ProceduralMemory.add_rule] *)
Definition add_rule (pm : ProceduralMemory) (instruction rationale : string)
    (category : option string) : ProceduralMemory * Result unit :=
  let rule := {| index := Z.of_nat (length (rules pm)) + 1;
                 instruction := instruction;
                 rationale := rationale;
                 category := category |} in
  _save_rules (set_rules pm (rules pm ++ [rule])).

(** [rules.pop(i)] for an index within range. *)
Definition pop_at {A} (i : nat) (l : list A) : list A := take i l ++ drop (S i) l.

(** The re-indexing loop of [remove_rule], on a list that holds every rule
    object once; [Objects.renumber] is the loop on a list of references. *)
Definition reindex (rs : list ProceduralRule) : list ProceduralRule :=
  map (fun '(i, rule) =>
         {| index := i; instruction := instruction rule;
            rationale := rationale rule; category := category rule |})
      (Py.enumerate rs 1).

(** [ProceduralMemory.remove_rule], on a list that holds every rule object
    once; [Objects.remove_rule] is the method on a list of references. *)
Definition remove_rule (pm : ProceduralMemory) (index : Z) : ProceduralMemory * Result unit :=
  if (0 <=? index - 1) && (index - 1 <? Z.of_nat (length (rules pm))) then
    _save_rules (set_rules pm (reindex (pop_at (Z.to_nat (index - 1)) (rules pm))))
  else (pm, Ok tt).

(** Indices are contiguous from 1: [rules[i].index == i + 1]. *)
Definition contiguous (rs : list ProceduralRule) : Prop :=
  forall (i : nat) (r : ProceduralRule), rs !! i = Some r -> index r = Z.of_nat i + 1.

(** The rules that come back from the file as they went in: a non-empty
    instruction, no surrounding white space and neither LF nor CR in either
    text (reading turns a CR into a line break), no [" - "] in the
    instruction nor [" -"] at its end, and no category (the file has no place
    for one). *)
Definition storable (r : ProceduralRule) : Prop :=
  instruction r <> EmptyString
  /\ Py.strip (instruction r) = instruction r
  /\ Py.strip (rationale r) = rationale r
  /\ Py.has_char Py.LF (instruction r) = false
  /\ Py.has_char Py.LF (rationale r) = false
  /\ Py.contains " - " (instruction r +:+ " -") = false
  /\ category r = None
  /\ Py.has_char Py.CR (instruction r) = false
  /\ Py.has_char Py.CR (rationale r) = false.

(** The line of a rule after its number. *)
Definition body (r : ProceduralRule) : string :=
  if Py.truthy_str (rationale r)
  then instruction r +:+ " - " +:+ rationale r
  else instruction r.

(** The texts and the category of a rule, without its number. *)
Definition unnumbered (r : ProceduralRule) : string * string * option string :=
  (instruction r, rationale r, category r).

(** The text [_save_rules] writes for a rule list. *)
Definition file_text (rs : list ProceduralRule) : string :=
  Py.join Py.nl (map rule_line rs).

(** A store whose file holds the default rules and cannot be written. *)
Definition read_only : ProceduralMemory :=
  {| rules := _get_default_rules;
     file_path := {| text := Some (file_text _get_default_rules);
                     writable := false; writes := 1 |};
     last_updated := Some 1 |}.

(** *** Rule objects

    [self.rules] is a list of references to [ProceduralRule] objects.
    [_parse_rules], [_get_default_rules] and [add_rule] construct the objects
    they put in the list, but [store] appends the very object it is handed,
    so one object can sit at several positions; and [remove_rule] renumbers
    by assigning to [rule.index] on the objects.  A [ProceduralMemory] above
    gives the list by its values.  Here the objects are kept apart from the
    positions that refer to them. *)

Module Objects.

(** The rule objects by address ([heap]), [self.rules] as the list of the
    addresses it holds ([held]), the next unused address, the rule file and
    [last_updated]. *)
Record Memory : Type := mkMemory {
  heap : nat -> ProceduralRule;
  held : list nat;
  fresh : nat;
  file : RuleFile;
  updated : option Z
}.

(** The rules of [self.rules], position by position. *)
Definition listed (o : Memory) : list ProceduralRule := map (heap o) (held o).

(** The memory by its values. *)
Definition current (o : Memory) : ProceduralMemory :=
  {| rules := listed o; file_path := file o; last_updated := updated o |}.

(** [ProceduralMemory._save_rules]: reads the objects, writes the file. *)
Definition _save_rules (o : Memory) : Memory * Result unit :=
  match _save_rules (current o) with
  | (pm, r) =>
      ({| heap := heap o; held := held o; fresh := fresh o;
          file := file_path pm; updated := updated o |}, r)
  end.

(** [rule.index = i] on the object at [address]. *)
Definition set_index (h : nat -> ProceduralRule) (address : nat) (i : Z)
  : nat -> ProceduralRule :=
  fun a =>
    if Nat.eqb a address
    then {| index := i; instruction := instruction (h a);
            rationale := rationale (h a); category := category (h a) |}
    else h a.

(** [for i, rule in enumerate(self.rules, 1): rule.index = i] *)
Definition renumber (h : nat -> ProceduralRule) (refs : list nat)
  : nat -> ProceduralRule :=
  fold_left (fun h '(i, address) => set_index h address i) (Py.enumerate refs 1) h.

(** [ProceduralMemory.remove_rule] *)
Definition remove_rule (o : Memory) (index : Z) : Memory * Result unit :=
  if (0 <=? index - 1) && (index - 1 <? Z.of_nat (length (held o))) then
    let remaining := pop_at (Z.to_nat (index - 1)) (held o) in
    _save_rules {| heap := renumber (heap o) remaining; held := remaining;
                   fresh := fresh o; file := file o; updated := updated o |}
  else (o, Ok tt).

(** [ProceduralRule(...)] in the caller: a new object at the next address. *)
Definition construct (o : Memory) (rule : ProceduralRule) : Memory * nat :=
  ({| heap := fun a => if Nat.eqb a (fresh o) then rule else heap o a;
      held := held o; fresh := S (fresh o);
      file := file o; updated := updated o |}, fresh o).

(** [ProceduralMemory.store] of a [ProceduralRule]: the object at [address]
    itself is appended, not a copy. *)
Definition store (o : Memory) (address : nat) : Memory * Result unit :=
  match _save_rules {| heap := heap o; held := held o ++ [address]; fresh := fresh o;
                       file := file o; updated := updated o |} with
  | (o', Ok _) => (o', Ok tt)
  | (o', Err e) => (o', wrap "Failed to store procedural rule: " (Err e))
  end.

(** [self.rules = rs] for a list [rs] built for the purpose: new objects, one
    per position. *)
Definition assign (o : Memory) (rs : list ProceduralRule) : Memory :=
  {| heap := fun a =>
               if (fresh o <=? a)%nat then nth (a - fresh o) rs (heap o a) else heap o a;
     held := seq (fresh o) (length rs);
     fresh := (fresh o + length rs)%nat;
     file := file o; updated := updated o |}.

(** [ProceduralMemory.update] *)
Definition update (llm : Llm.ChatModel) (now : Z) (o : Memory)
    (what_worked what_to_avoid : list string) : Memory * Result unit :=
  let prompt := _create_update_prompt (current o) what_worked what_to_avoid in
  match llm (Llm.InputStr prompt) with
  | Err e => (o, wrap "Failed to update procedural memory: " (Err e))
  | Ok result_content =>
      let new_rules_text := Py.strip result_content in
      let new_rules := _parse_rules new_rules_text in
      if Py.truthy_list new_rules then
        match _save_rules (assign o (take 10 new_rules)) with
        | (o', Ok _) =>
            ({| heap := heap o'; held := held o'; fresh := fresh o';
                file := file o'; updated := Some now |}, Ok tt)
        | (o', Err e) => (o', wrap "Failed to update procedural memory: " (Err e))
        end
      else (o, Ok tt)
  end.

(** A memory whose list holds one object per position. *)
Definition apart (pm : ProceduralMemory) : Memory :=
  {| heap := fun a =>
               nth a (rules pm)
                 {| index := 0; instruction := EmptyString;
                    rationale := EmptyString; category := None |};
     held := seq 0 (length (rules pm));
     fresh := length (rules pm);
     file := file_path pm; updated := last_updated pm |}.

(** The two operations after which the indices are renumbered. *)
Inductive Change : Type :=
| ByUpdate (llm : Llm.ChatModel) (now : Z) (what_worked what_to_avoid : list string)
| ByRemoveRule (index : Z).

(** [update] with a reply that parses to at least one rule; [remove_rule]
    with an index that names a rule. *)
Definition applies (c : Change) (o : Memory) : Prop :=
  match c with
  | ByUpdate llm now what_worked what_to_avoid =>
      exists reply,
        llm (Llm.InputStr (_create_update_prompt (current o) what_worked what_to_avoid))
        = Ok reply
        /\ _parse_rules (Py.strip reply) <> []
  | ByRemoveRule index => 1 <= index <= Z.of_nat (length (held o))
  end.

Definition change (c : Change) (o : Memory) : Memory :=
  match c with
  | ByUpdate llm now what_worked what_to_avoid =>
      (update llm now o what_worked what_to_avoid).1
  | ByRemoveRule index => (remove_rule o index).1
  end.

End Objects.

(** Sample states: a reply of blank lines, the store right after the default
    rules were seeded, and that store after two calls of [add_rule]. *)
Definition blank_reply : string := "  " +:+ Py.nl +:+ " " +:+ Py.nl.

(** A reply of twelve numbered takeaways. *)
Definition twelve_lines : string :=
  Py.join Py.nl
    (map (fun i => Py.str_of_int i +:+ ". Takeaway " +:+ Py.str_of_int i
                   +:+ " - because of " +:+ Py.str_of_int i)
         [1; 2; 3; 4; 5; 6; 7; 8; 9; 10; 11; 12]).

Definition seeded : ProceduralMemory :=
  {| rules := _get_default_rules;
     file_path := {| text := None; writable := true; writes := 0 |};
     last_updated := None |}.

Definition twelve : ProceduralMemory :=
  (add_rule (add_rule seeded "Greet the user" "Sets the tone" None).1
            "Close with a summary" "Helps recall" None).1.

(** The seeded store after a caller has built one rule and handed that one
    object to [store] twice. *)
Definition stored_twice : Objects.Memory :=
  let '(o, address) :=
    Objects.construct (Objects.apart seeded)
      {| index := 11; instruction := "Greet the user";
         rationale := "Sets the tone"; category := None |} in
  (Objects.store (Objects.store o address).1 address).1.

End Procedural.

(** ** The vector store behind [WeaviateProvider] *)

Module Store.

Record Object : Type := mkObject {
  uuid : string;
  properties : Dict
}.

(** A collection: its objects in insertion order, and whether the store can
    be reached (an unreachable store makes every call raise). *)
Record Collection : Type := mkCollection {
  objects : list Object;
  reachable : bool
}.

(** The identifier the store gives to its next object. *)
Definition fresh_uuid (c : Collection) : string :=
  "uuid-" +:+ Py.str_of_int (Z.of_nat (length (objects c))).

(** [collection.data.insert(properties)] *)
Definition insert (c : Collection) (props : Dict) : Collection * Result string :=
  if reachable c then
    ({| objects := objects c ++ [ {| uuid := fresh_uuid c; properties := props |} ];
        reachable := true |}, Ok (fresh_uuid c))
  else (c, Err (ExternalError "connection to the vector store failed")).

End Store.

(** Field validation of the pydantic models in src/core/models/memory.py:
    a [str] field takes a str, a [List[str]] field a list of str, an [int]
    field an int, a [Dict] field a dict. *)
(** What pydantic makes of a value handed to a field of the given type, for
    the values a JSON document or a property of the vector store holds under
    its declared type: a str for a str field, a list of str for a list
    field, an int for an int field (the schema of init_db.py declares
    [chunk_index] as INT).  The coercions pydantic applies to other values (a
    bool, an integral float or a numeric str for an int field) are not
    modelled: such a value is refused here. *)
Module Validate.

Definition str (v : Py.Value) : option string :=
  match v with Py.VStr s => Some s | _ => None end.

Fixpoint strs (items : list Py.Value) : option (list string) :=
  match items with
  | [] => Some []
  | v :: rest =>
      match str v, strs rest with
      | Some s, Some l => Some (s :: l)
      | _, _ => None
      end
  end.

Definition list_str (v : Py.Value) : option (list string) :=
  match v with Py.VList items => strs items | _ => None end.

Definition int (v : Py.Value) : option Z :=
  match v with Py.VInt n => Some n | _ => None end.

Definition dict (v : Py.Value) : option (list (string * Py.Value)) :=
  match v with Py.VDict items => Some items | _ => None end.

End Validate.

(** ** src/memory/episodic.py *)

Module Episodic.

Import Working.

(** [EpisodicMemoryEntry]; time stamps are kept in their ISO text form. *)
Record EpisodicMemoryEntry : Type := mkEntry {
  id : option string;
  conversation : string;
  context_tags : list string;
  conversation_summary : string;
  what_worked : string;
  what_to_avoid : string;
  created_at : string;
  last_accessed : option string;
  access_count : Z
}.

(** What [reflection_chain.ainvoke] returns when it returns: the parsed JSON
    document, a dict when the document is an object. *)
Inductive Reflection : Type :=
| ReflectionDict (d : Dict)
| ReflectionOther (v : Py.Value).

(** The chain [prompt | llm | JsonOutputParser()], applied to the formatted
    conversation: a parsed document, or the exception of the model call or of
    the parser. *)
Definition ReflectionChain : Type := string -> Result Reflection.

(** ["HUMAN" if msg.type == "human" else "AI"]: of the classes of
    [MessageType], [HumanMessage] is the one whose [type] is "human". *)
Definition role_of (m : BaseMessage) : string :=
  if isinstance m HumanMessage then "HUMAN" else "AI".

(** [EpisodicMemory._format_conversation] *)
Definition _format_conversation (messages : list BaseMessage) : string :=
  Py.join Py.nl
    (map (fun m => role_of m +:+ ": " +:+ content m)
         (not_system messages)).

Definition failed (prefix detail : string) {A} : Result A :=
  Err (EpisodicMemoryError (prefix +:+ detail)).

(** The constructor call [EpisodicMemoryEntry(conversation=..., ...)] of
    [store], on the four values read from the reflection. *)
Definition make_entry (now conversation : string)
    (tags summary worked avoid : Py.Value) : option EpisodicMemoryEntry :=
  match Validate.list_str tags, Validate.str summary,
        Validate.str worked, Validate.str avoid with
  | Some tags, Some summary, Some worked, Some avoid =>
      Some {| id := None; conversation := conversation; context_tags := tags;
              conversation_summary := summary; what_worked := worked;
              what_to_avoid := avoid; created_at := now;
              last_accessed := None; access_count := 0 |}
  | _, _, _, _ => None
  end.

(** The property map [store] inserts. *)
Definition entry_properties (entry : EpisodicMemoryEntry) : Dict :=
  <[ "conversation" := Py.VStr (conversation entry) ]>
  (<[ "context_tags" := Py.VList (map Py.VStr (context_tags entry)) ]>
  (<[ "conversation_summary" := Py.VStr (conversation_summary entry) ]>
  (<[ "what_worked" := Py.VStr (what_worked entry) ]>
  (<[ "what_to_avoid" := Py.VStr (what_to_avoid entry) ]>
  (<[ "created_at" := Py.VStr (created_at entry) ]> ∅))))).

(** [EpisodicMemory.store]; [now] is the reading of the clock.  The text of
    the [EpisodicMemoryError] is the prefix of the source followed by the
    text of the exception caught; where that is an exception of Python or of
    pydantic, its text is shortened here. *)
Definition store (reflection_chain : ReflectionChain) (now : string)
    (collection : Store.Collection) (messages : list BaseMessage)
  : Store.Collection * Result unit :=
  let prefix := "Failed to store episodic memory: " in
  let conversation := _format_conversation messages in
  match reflection_chain conversation with
  | Err e => (collection, failed prefix (exn_text e))
  | Ok (ReflectionOther _) =>
      (collection, failed prefix "object has no attribute 'get'")
  | Ok (ReflectionDict reflection) =>
      match make_entry now conversation
              (dict_get reflection "context_tags" (Py.VList []))
              (dict_get reflection "conversation_summary" (Py.VStr ""))
              (dict_get reflection "what_worked" (Py.VStr ""))
              (dict_get reflection "what_to_avoid" (Py.VStr "")) with
      | None =>
          (collection, failed prefix "validation error for EpisodicMemoryEntry")
      | Some entry =>
          match Store.insert collection (entry_properties entry) with
          | (collection', Ok _) => (collection', Ok tt)
          | (collection', Err e) => (collection', failed prefix (exn_text e))
          end
      end
  end.

(** [EpisodicMemory.reflect] *)
Definition reflect (reflection_chain : ReflectionChain) (conversation : list BaseMessage)
  : Result Reflection :=
  match reflection_chain (_format_conversation conversation) with
  | Ok r => Ok r
  | Err e => failed "Failed to reflect on conversation: " (exn_text e)
  end.

(** A key of the reflection is absent, or holds a value of the declared type. *)
Definition typed {T} (validate : Py.Value -> option T) (o : option Py.Value) : Prop :=
  match o with
  | Some v => is_Some (validate v)
  | None => True
  end.

Definition well_typed (reflection : Dict) : Prop :=
  typed Validate.list_str (reflection !! "context_tags")
  /\ typed Validate.str (reflection !! "conversation_summary")
  /\ typed Validate.str (reflection !! "what_worked")
  /\ typed Validate.str (reflection !! "what_to_avoid").

(** The collection after one more object with the properties [props]. *)
Definition inserted (collection : Store.Collection) (props : Dict) : Store.Collection :=
  {| Store.objects :=
       Store.objects collection
       ++ [ {| Store.uuid := Store.fresh_uuid collection; Store.properties := props |} ];
     Store.reachable := true |}.

(** A reflection without [what_worked] and [what_to_avoid], an empty
    collection and a two-message transcript. *)
Definition partial_reflection : Dict :=
  <[ "conversation_summary" := Py.VStr "Talked about memory" ]>
  {[ "context_tags" := Py.VList [Py.VStr "memory"] ]}.

Definition empty_collection : Store.Collection :=
  {| Store.objects := []; Store.reachable := true |}.

Definition one_turn : list Working.BaseMessage :=
  [Working.mkMessage Working.HumanMessage "Hello";
   Working.mkMessage Working.AIMessage "Hi there"].

End Episodic.

(** ** src/memory/semantic.py *)

Module Semantic.

(** [SemanticChunk] *)
Record SemanticChunk : Type := mkChunk {
  id : string;
  content : string;
  source : string;
  chunk_index : Z;
  metadata : list (string * Py.Value)
}.

(** [collection.query.hybrid(query=query, alpha=0.5, limit=limit)], read at
    [.objects]: the ranked objects, or the exception of the call. *)
Definition HybridSearch : Type := string -> Z -> Result (list Store.Object).

(** [collection.query.fetch_objects(where=source == ...)], read at [.objects]. *)
Definition FetchBySource : Type := string -> Result (list Store.Object).

Definition SEMANTIC_CHUNK_LIMIT : Z := 15.

Definition failed (prefix detail : string) {A} : Result A :=
  Err (SemanticMemoryError (prefix +:+ detail)).

(** [props.get('chunk', '').strip()]: only a str has [strip]. *)
Definition chunk_text (obj : Store.Object) : option string :=
  match dict_get (Store.properties obj) "chunk" (Py.VStr "") with
  | Py.VStr s => Some (Py.strip s)
  | _ => None
  end.

Definition chunk_label (i : Z) (content : string) : string :=
  Py.nl +:+ "CHUNK " +:+ Py.str_of_int (i + 1) +:+ ":" +:+ Py.nl +:+ content.

(** The loop of [_format_chunks] over [enumerate(objects)], [chunks] being the
    pieces collected so far. *)
Fixpoint format_loop (entries : list (Z * Store.Object)) (chunks : list string)
  : option (list string) :=
  match entries with
  | [] => Some chunks
  | (i, obj) :: rest =>
      match chunk_text obj with
      | None => None
      | Some content =>
          if Py.truthy_str content
          then format_loop rest (chunks ++ [chunk_label i content])
          else format_loop rest chunks
      end
  end.

(** [SemanticMemory._format_chunks]; [None] is the [AttributeError] of a
    [chunk] property that is not a str. *)
Definition _format_chunks (objects : list Store.Object) : option string :=
  match format_loop (Py.enumerate objects 0) [] with
  | Some chunks => Some (if Py.truthy_list chunks then Py.join "" chunks else "")
  | None => None
  end.

(** [SemanticMemory.retrieve] *)
Definition retrieve (hybrid : HybridSearch) (query : string) (limit : option Z)
  : Result string :=
  let prefix := "Failed to retrieve semantic memory: " in
  match hybrid query (default SEMANTIC_CHUNK_LIMIT limit) with
  | Err e => failed prefix (exn_text e)
  | Ok objects =>
      match _format_chunks objects with
      | Some block => Ok block
      | None => failed prefix "object has no attribute 'strip'"
      end
  end.

(** The constructor call [SemanticChunk(id=str(obj.uuid), ...)]. *)
Definition to_chunk (obj : Store.Object) : option SemanticChunk :=
  let props := Store.properties obj in
  match Validate.str (dict_get props "chunk" (Py.VStr "")),
        Validate.str (dict_get props "source" (Py.VStr "")),
        Validate.int (dict_get props "chunk_index" (Py.VInt 0)),
        Validate.dict (dict_get props "metadata" (Py.VDict [])) with
  | Some content, Some source, Some chunk_index, Some metadata =>
      Some {| id := Store.uuid obj; content := content; source := source;
              chunk_index := chunk_index; metadata := metadata |}
  | _, _, _, _ => None
  end.

(** The loop that builds [chunks] from [results.objects]. *)
Fixpoint to_chunks (objects : list Store.Object) : option (list SemanticChunk) :=
  match objects with
  | [] => Some []
  | obj :: rest =>
      match to_chunk obj, to_chunks rest with
      | Some c, Some cs => Some (c :: cs)
      | _, _ => None
      end
  end.

(** [SemanticMemory.search] *)
Definition search (hybrid : HybridSearch) (query : string) (limit : Z)
  : Result (list SemanticChunk) :=
  let prefix := "Failed to search semantic memory: " in
  match hybrid query limit with
  | Err e => failed prefix (exn_text e)
  | Ok objects =>
      match to_chunks objects with
      | Some chunks => Ok chunks
      | None => failed prefix "validation error for SemanticChunk"
      end
  end.

(** [list.sort(key=...)] is a stable sort: [insert_sorted] puts an element in
    front of the first one whose key is not smaller. *)
Fixpoint insert_sorted {A} (key : A -> Z) (x : A) (l : list A) : list A :=
  match l with
  | [] => [x]
  | y :: rest =>
      if key x <=? key y then x :: y :: rest else y :: insert_sorted key x rest
  end.

Fixpoint sort_by {A} (key : A -> Z) (l : list A) : list A :=
  match l with
  | [] => []
  | x :: rest => insert_sorted key x (sort_by key rest)
  end.

(** [SemanticMemory.get_by_source] *)
Definition get_by_source (fetch : FetchBySource) (source : string)
  : Result (list SemanticChunk) :=
  let prefix := "Failed to get chunks by source: " in
  match fetch source with
  | Err e => failed prefix (exn_text e)
  | Ok objects =>
      match to_chunks objects with
      | Some chunks => Ok (sort_by chunk_index chunks)
      | None => failed prefix "validation error for SemanticChunk"
      end
  end.

(** [SemanticMemory.store], for a chunk that is already a [SemanticChunk];
    [now] is the reading of the clock in ISO form. *)
Definition store (now : string) (collection : Store.Collection) (chunk : SemanticChunk)
  : Store.Collection * Result unit :=
  match Store.insert collection
          (<[ "chunk" := Py.VStr (content chunk) ]>
           (<[ "source" := Py.VStr (source chunk) ]>
           (<[ "chunk_index" := Py.VInt (chunk_index chunk) ]>
           (<[ "metadata" := Py.VDict (metadata chunk) ]>
           (<[ "created_at" := Py.VStr now ]> ∅))))) with
  | (collection', Ok _) => (collection', Ok tt)
  | (collection', Err e) =>
      (collection', failed "Failed to store semantic chunk: " (exn_text e))
  end.

(** The counting loop of [get_stats]:
    [sources[chunk.source] = sources.get(chunk.source, 0) + 1]. *)
Definition count_sources (chunks : list SemanticChunk) : gmap string Z :=
  fold_left
    (fun sources chunk =>
       <[ source chunk := default 0 (sources !! source chunk) + 1 ]> sources)
    chunks ∅.

(** What [get_stats] returns: the report, or the dict [{"error": ...}]. *)
Inductive Stats : Type :=
| StatsReport (total_chunks : Z) (sources : gmap string Z) (collection : string)
| StatsError (error : string).

(** [SemanticMemory.get_stats]; [total_count] is the outcome of
    [collection.aggregate.over_all(total_count=True)]. *)
Definition get_stats (total_count : Result Z) (hybrid : HybridSearch) : Stats :=
  match total_count with
  | Err e => StatsError (exn_text e)
  | Ok total =>
      match search hybrid "" 100 with
      | Err e => StatsError (exn_text e)
      | Ok all_chunks => StatsReport total (count_sources all_chunks) "CoALA_Paper"
      end
  end.

(** The number of chunks of one source. *)
Definition from_source (src : string) (chunks : list SemanticChunk) : Z :=
  Z.of_nat (length (List.filter (fun c => String.eqb (source c) src) chunks)).

(** Three objects of two sources. *)
Definition two_sources : list Store.Object :=
  [ {| Store.uuid := "u0";
       Store.properties := <[ "source" := Py.VStr "a.pdf" ]> {[ "chunk" := Py.VStr "x" ]} |};
    {| Store.uuid := "u1";
       Store.properties := <[ "source" := Py.VStr "b.pdf" ]> {[ "chunk" := Py.VStr "y" ]} |};
    {| Store.uuid := "u2";
       Store.properties := <[ "source" := Py.VStr "a.pdf" ]> {[ "chunk" := Py.VStr "z" ]} |} ].

(** The block the specification describes: every chunk content, in order,
    each under its 1-based label. *)
Definition spec_format_chunks (contents : list string) : string :=
  Py.join "" (map (fun '(i, c) => chunk_label i c) (Py.enumerate contents 0)).

(** The text the store holds under [chunk] for an object ([""] when the
    property is absent). *)
Definition holds (obj : Store.Object) (c : string) : Prop :=
  dict_get (Store.properties obj) "chunk" (Py.VStr "") = Py.VStr c.

(** What one chunk contributes: its label and its stripped text, or nothing
    when the stripped text is empty. *)
Definition piece (entry : Z * string) : option string :=
  let '(i, c) := entry in
  if Py.truthy_str (Py.strip c) then Some (chunk_label i (Py.strip c)) else None.

Definition labelled_block (contents : list string) : string :=
  Py.join "" (omap piece (Py.enumerate contents 0)).

(** Sample objects of the semantic collection. *)
Definition chunk_object (uuid text : string) : Store.Object :=
  {| Store.uuid := uuid; Store.properties := {[ "chunk" := Py.VStr text ]} |}.

Definition indexed_object (uuid text : string) (i : Z) : Store.Object :=
  {| Store.uuid := uuid;
     Store.properties := <[ "chunk_index" := Py.VInt i ]> {[ "chunk" := Py.VStr text ]} |}.

Definition shuffled : list Store.Object :=
  [indexed_object "u2" "third" 2; indexed_object "u0" "first" 0;
   indexed_object "u1" "second" 1].

End Semantic.

(** ** src/agent/core.py *)

Module Agent.

Import Working.

Section MemoryAgent.

Variable AgentState : Type.

(** What the lookup of [_create_system_prompt] and of [_update_state] on a
    [MemoryAgent] finds.  The class (core.py 10-90) has no base class and
    defines [__init__], [initialize], [process_message], [end_conversation]
    and [shutdown]; [__init__] sets neither name.  So each lookup finds
    nothing, and the expression raises [AttributeError]. *)
Definition _create_system_prompt
  : option (option Episodic.EpisodicMemoryEntry -> string -> string) := None.
Definition _update_state
  : option (AgentState -> option Episodic.EpisodicMemoryEntry -> AgentState) := None.

Definition no_attribute (name : string) : Exn :=
  AttributeError ("'MemoryAgent' object has no attribute '" +:+ name +:+ "'").

(** The collaborators: the chat model, [EpisodicMemory.retrieve] (whose
    access-count write stays inside the vector store), the hybrid search of
    the semantic collection, [provider.initialize()], and the clock. *)
Variable llm : Llm.ChatModel.
Variable episodic_retrieve : string -> Result (option Episodic.EpisodicMemoryEntry).
Variable hybrid : Semantic.HybridSearch.
Variable provider_initialize : Result unit.
Variable now : Z.

(** The agent; [llm_calls] records, oldest first, what [llm.ainvoke] was
    called with. *)
Record MemoryAgent : Type := mkAgent {
  state : AgentState;
  working_memory : WorkingMemory;
  procedural_memory : Procedural.ProceduralMemory;
  initialized : bool;
  llm_calls : list Llm.Input
}.

Definition set_working_memory (a : MemoryAgent) (wm : WorkingMemory) : MemoryAgent :=
  {| state := state a; working_memory := wm;
     procedural_memory := procedural_memory a;
     initialized := initialized a; llm_calls := llm_calls a |}.

Definition set_state (a : MemoryAgent) (st : AgentState) : MemoryAgent :=
  {| state := st; working_memory := working_memory a;
     procedural_memory := procedural_memory a;
     initialized := initialized a; llm_calls := llm_calls a |}.

Definition log_call (a : MemoryAgent) (input : Llm.Input) : MemoryAgent :=
  {| state := state a; working_memory := working_memory a;
     procedural_memory := procedural_memory a;
     initialized := initialized a; llm_calls := llm_calls a ++ [input] |}.

(** [MemoryAgent.initialize] *)
Definition initialize (a : MemoryAgent) : MemoryAgent * Result unit :=
  if negb (initialized a) then
    match provider_initialize with
    | Err e => (a, Err e)
    | Ok _ =>
        match Procedural.initialize now (procedural_memory a) with
        | (pm, Err e) =>
            ({| state := state a; working_memory := working_memory a;
                procedural_memory := pm; initialized := false;
                llm_calls := llm_calls a |}, Err e)
        | (pm, Ok _) =>
            ({| state := state a; working_memory := working_memory a;
                procedural_memory := pm; initialized := true;
                llm_calls := llm_calls a |}, Ok tt)
        end
    end
  else (a, Ok tt).

(** [self.working_memory.get_messages()] as [process_message] writes it: the
    call of an [async def] with no [await], so a coroutine object whose body
    would read the messages. *)
Definition get_messages_call (wm : WorkingMemory) (exclude_system : bool)
  : Llm.Coroutine (list BaseMessage) :=
  Llm.coroutine (fun _ => get_messages wm exclude_system).

(** The body of [process_message] after the initialization guard.  The
    three retrievals come first; the lookup of [_create_system_prompt] on
    line 51 comes before any store into working memory and before the model
    call, the lookup of [_update_state] on line 64 after the reply is
    stored. *)
Definition process_ready (a : MemoryAgent) (user_input : string)
  : MemoryAgent * Result string :=
  match episodic_retrieve user_input with
  | Err e => (a, Err e)
  | Ok episodic =>
      match Semantic.retrieve hybrid user_input None with
      | Err e => (a, Err e)
      | Ok semantic =>
          let procedural := Procedural.retrieve (procedural_memory a) in
          match _create_system_prompt with
          | None => (a, Err (no_attribute "_create_system_prompt"))
          | Some create =>
              let system_prompt := create episodic procedural in
              let wm := store_system (working_memory a) system_prompt in
              let wm :=
                if Py.truthy_str semantic then store_semantic wm semantic else wm in
              let wm := store_user wm user_input in
              let input := Llm.InputCoroutine (get_messages_call wm false) in
              let a := log_call (set_working_memory a wm) input in
              match llm input with
              | Err e => (a, Err e)
              | Ok response_content =>
                  let a := set_working_memory a (store_ai wm response_content) in
                  match _update_state with
                  | None => (a, Err (no_attribute "_update_state"))
                  | Some update =>
                      (set_state a (update (state a) episodic), Ok response_content)
                  end
              end
          end
      end
  end.

(** [MemoryAgent.process_message] *)
Definition process_message (a : MemoryAgent) (user_input : string)
  : MemoryAgent * Result string :=
  match initialize a with
  | (a, Err e) => (a, Err e)
  | (a, Ok _) => process_ready a user_input
  end.

End MemoryAgent.

Arguments state {AgentState} _.
Arguments working_memory {AgentState} _.
Arguments procedural_memory {AgentState} _.
Arguments initialized {AgentState} _.
Arguments llm_calls {AgentState} _.
Arguments mkAgent {AgentState} _ _ _ _ _.

(** A fresh, initialized agent: [WorkingMemory()] has capacity 50, the rule
    file holds the default rules. *)
Definition fresh_agent : MemoryAgent unit :=
  {| state := tt;
     working_memory := Working.init (Some 50);
     procedural_memory := Procedural.seeded;
     initialized := true;
     llm_calls := [] |}.

(** One turn on the fresh agent, with no episodic and no semantic hit. *)
Definition hello (llm : Llm.ChatModel) : MemoryAgent unit * Result string :=
  process_message unit llm (fun _ => Ok None) (fun _ _ => Ok []) (Ok tt) 0
    fresh_agent "Hello".

End Agent.

(** ** src/core/models/state.py *)

Module State.

(** [AgentState].  Times are readings of the clock; the float field
    [avg_response_time], which no method writes, is left out. *)
Record AgentState : Type := mkState {
  session_id : string;
  start_time : Z;
  last_activity : Z;
  episodic_history : list string;
  what_worked : gset string;
  what_to_avoid : gset string;
  current_context_tags : list string;
  total_messages : Z;
  total_tokens : Z;
  is_active : bool;
  has_error : bool;
  error_count : Z
}.

Definition set_history (st : AgentState) (h : list string) : AgentState :=
  {| session_id := session_id st; start_time := start_time st;
     last_activity := last_activity st; episodic_history := h;
     what_worked := what_worked st; what_to_avoid := what_to_avoid st;
     current_context_tags := current_context_tags st;
     total_messages := total_messages st; total_tokens := total_tokens st;
     is_active := is_active st; has_error := has_error st;
     error_count := error_count st |}.

(** [AgentState.add_episodic]: append, then keep the last 10. *)
Definition add_episodic (st : AgentState) (summary : string) : AgentState :=
  let history := episodic_history st ++ [summary] in
  set_history st
    (if 10 <? Z.of_nat (length history) then Py.slice_from history (- 10) else history).

(** [AgentState.add_what_worked] *)
Definition add_what_worked (st : AgentState) (item : string) : AgentState :=
  {| session_id := session_id st; start_time := start_time st;
     last_activity := last_activity st; episodic_history := episodic_history st;
     what_worked := {[ item ]} ∪ what_worked st; what_to_avoid := what_to_avoid st;
     current_context_tags := current_context_tags st;
     total_messages := total_messages st; total_tokens := total_tokens st;
     is_active := is_active st; has_error := has_error st;
     error_count := error_count st |}.

(** [AgentState.add_what_to_avoid] *)
Definition add_what_to_avoid (st : AgentState) (item : string) : AgentState :=
  {| session_id := session_id st; start_time := start_time st;
     last_activity := last_activity st; episodic_history := episodic_history st;
     what_worked := what_worked st; what_to_avoid := {[ item ]} ∪ what_to_avoid st;
     current_context_tags := current_context_tags st;
     total_messages := total_messages st; total_tokens := total_tokens st;
     is_active := is_active st; has_error := has_error st;
     error_count := error_count st |}.

(** [AgentState.reset] *)
Definition reset (st : AgentState) : AgentState :=
  {| session_id := session_id st; start_time := start_time st;
     last_activity := last_activity st; episodic_history := [];
     what_worked := ∅; what_to_avoid := ∅;
     current_context_tags := [];
     total_messages := 0; total_tokens := total_tokens st;
     is_active := is_active st; has_error := false;
     error_count := 0 |}.

End State.

(** ** The end of a conversation (src/agent/core.py), the conversation
    manager (src/agent/conversation.py) and the clear route (src/api/routes.py) *)

Module Lifecycle.

Import Working Agent.

(** What [end_conversation] passes to [episodic_memory.store]: a list of
    messages, or the coroutine object of a call that was not awaited. *)
Inductive Transcript : Type :=
| Messages (messages : list BaseMessage)
| Pending (call : Llm.Coroutine (list BaseMessage)).

(** [EpisodicMemory.store] on such an argument.  The loop of
    [_format_conversation] over a coroutine object raises a [TypeError]; it
    does so inside the [try] of [store]. *)
Definition episodic_store (reflection_chain : Episodic.ReflectionChain) (now : string)
    (collection : Store.Collection) (transcript : Transcript)
  : Store.Collection * Result unit :=
  match transcript with
  | Messages messages => Episodic.store reflection_chain now collection messages
  | Pending _ =>
      (collection,
       Episodic.failed "Failed to store episodic memory: "
         "'coroutine' object is not iterable")
  end.

(** [MemoryAgent.end_conversation]; [now_iso] and [now] are the readings of
    the clock in the episodic and the procedural store. *)
Definition end_conversation (reflection_chain : Episodic.ReflectionChain)
    (llm : Llm.ChatModel) (now_iso : string) (now : Z)
    (a : MemoryAgent State.AgentState) (collection : Store.Collection)
  : MemoryAgent State.AgentState * Store.Collection * Result unit :=
  let messages := Pending (get_messages_call (working_memory a) true) in
  match episodic_store reflection_chain now_iso collection messages with
  | (collection', Err e) => (a, collection', Err e)
  | (collection', Ok _) =>
      let worked := elements (State.what_worked (state a)) in
      let avoid := elements (State.what_to_avoid (state a)) in
      let logged :=
        llm_calls a
        ++ [Llm.InputStr
              (Procedural._create_update_prompt (procedural_memory a) worked avoid)] in
      match Procedural.update llm now (procedural_memory a) worked avoid with
      | (pm, Err e) =>
          ({| state := state a; working_memory := working_memory a;
              procedural_memory := pm; initialized := initialized a;
              llm_calls := logged |}, collection', Err e)
      | (pm, Ok _) =>
          ({| state := State.reset (state a);
              working_memory := Working.clear (working_memory a);
              procedural_memory := pm; initialized := initialized a;
              llm_calls := logged |}, collection', Ok tt)
      end
  end.

(** [ConversationManager]: its identifier and its [stats] dict.  The agent
    is shared with the caller and is passed next to the manager. *)
Record ConversationManager : Type := mkManager {
  conversation_id : string;
  messages : Z;
  start_time : option Z;
  end_time : option Z
}.

(** What [process] gives back: the reply, or the [AgentError] it raises. *)
Inductive Reply : Type :=
| Answer (response : string)
| AgentError (msg : string).

Section Manager.

Variable AgentState : Type.
Variable llm : Llm.ChatModel.
Variable episodic_retrieve : string -> Result (option Episodic.EpisodicMemoryEntry).
Variable hybrid : Semantic.HybridSearch.
Variable provider_initialize : Result unit.
Variable now : Z.

(** [ConversationManager.__init__]; [fresh_id] is the clock formatted as an
    identifier. *)
Definition new (fresh_id : string) : ConversationManager :=
  {| conversation_id := fresh_id; messages := 0; start_time := None; end_time := None |}.

(** [ConversationManager.start] *)
Definition start (m : ConversationManager) (a : MemoryAgent AgentState)
  : ConversationManager * MemoryAgent AgentState * Result unit :=
  let m := {| conversation_id := conversation_id m; messages := messages m;
              start_time := Some now; end_time := end_time m |} in
  if negb (initialized a) then
    match initialize AgentState provider_initialize now a with
    | (a', r) => (m, a', r)
    end
  else (m, a, Ok tt).

(** [ConversationManager.process] *)
Definition process (m : ConversationManager) (a : MemoryAgent AgentState)
    (user_input : string) : ConversationManager * MemoryAgent AgentState * Reply :=
  let m := {| conversation_id := conversation_id m; messages := messages m + 1;
              start_time := start_time m; end_time := end_time m |} in
  match process_message AgentState llm
          episodic_retrieve hybrid provider_initialize now a user_input with
  | (a', Ok response) => (m, a', Answer response)
  | (a', Err e) => (m, a', AgentError ("Failed to process message: " +:+ exn_text e))
  end.

(** A sequence of calls of [process], one per input. *)
Fixpoint process_all (m : ConversationManager) (a : MemoryAgent AgentState)
    (inputs : list string) : ConversationManager * MemoryAgent AgentState * list Reply :=
  match inputs with
  | [] => (m, a, [])
  | user_input :: rest =>
      let '(m1, a1, reply) := process m a user_input in
      let '(m2, a2, replies) := process_all m1 a1 rest in
      (m2, a2, reply :: replies)
  end.

(** What the route [clear_memory] answers: its JSON body, or the
    [HTTPException] it raises. *)
Inductive Response : Type :=
| Cleared (memory_type : string)
| HTTPException (status_code : Z) (detail : string).

(** The route [clear_memory] of src/api/routes.py.  The [HTTPException] of
    status 400 is raised inside the [try] and caught by [except Exception];
    [http_text] is the [str] of that exception. *)
Definition clear_memory (http_text : Z -> string -> string) (memory_type : string)
    (a : MemoryAgent AgentState) : MemoryAgent AgentState * Response :=
  if String.eqb memory_type "working" then
    ({| state := state a; working_memory := Working.clear (working_memory a);
        procedural_memory := procedural_memory a; initialized := initialized a;
        llm_calls := llm_calls a |}, Cleared memory_type)
  else if String.eqb memory_type "episodic" then (a, Cleared memory_type)
  else (a, HTTPException 500 (http_text 400 "Invalid memory type")).

End Manager.

End Lifecycle.

(** * Properties *)

(** ** Slicing *)

Section Slices.
Context {A : Type}.
Implicit Types l : list A.

Lemma slice_from_last l (n : Z) :
  0 < n -> Py.slice_from l (- n) = drop (length l - Z.to_nat n) l.
Proof.
  intros Hn. unfold Py.slice_from, Py.clamp_index.
  destruct (Z.ltb_spec (- n) 0) as [_|]; [|lia].
  f_equal. lia.
Qed.

Lemma slice_to_last l (n : Z) :
  0 < n -> Py.slice_to l (- n) = take (length l - Z.to_nat n) l.
Proof.
  intros Hn. unfold Py.slice_to, Py.clamp_index.
  destruct (Z.ltb_spec (- n) 0) as [_|]; [|lia].
  f_equal. lia.
Qed.

Lemma slice_split l (n : Z) :
  0 < n -> Py.slice_to l (- n) ++ Py.slice_from l (- n) = l.
Proof.
  intros Hn. rewrite slice_from_last, slice_to_last by done.
  apply take_drop.
Qed.

End Slices.

(** ** Stripping *)

Section StripFacts.

Local Arguments String.append !_ _ / : simpl nomatch.

Lemma append_assoc (a b c : string) : (a +:+ b) +:+ c = a +:+ (b +:+ c).
Proof. induction a as [|x a IH]; [done|]. cbn. by rewrite IH. Qed.

Lemma rev_app_append (s t : string) : String.rev_app s t = String.rev s +:+ t.
Proof.
  revert t. induction s as [|a s IH]; intros t; [done|].
  unfold String.rev. cbn. rewrite (IH (String a t)), (IH (String a "")).
  by rewrite append_assoc.
Qed.

Lemma rev_cons (c : ascii) (s : string) :
  String.rev (String c s) = String.rev s +:+ String c "".
Proof. unfold String.rev at 1. cbn. apply rev_app_append. Qed.

Lemma rev_app_snoc (y : string) (c : ascii) (t : string) :
  String.rev_app (y +:+ String c "") t = String c (String.rev_app y t).
Proof. revert t. induction y as [|a y IH]; intros t; [done|]. cbn. apply IH. Qed.

Lemma drop_while_snoc (p : ascii -> bool) (x : string) (c : ascii) :
  p c = false -> exists y, Py.drop_while p (x +:+ String c "") = y +:+ String c "".
Proof.
  intros Hc. induction x as [|a x IH]; cbn.
  - rewrite Hc. by exists "".
  - destruct (p a); [done|]. by exists (String a x).
Qed.

(** [rstrip] keeps a first character that is not white space. *)
Lemma rstrip_head (c : ascii) (s : string) :
  Py.is_space c = false -> exists r, Py.rstrip (String c s) = String c r.
Proof.
  intros Hc. unfold Py.rstrip, Py.lstrip. rewrite rev_cons.
  destruct (drop_while_snoc Py.is_space (String.rev s) c Hc) as [y ->].
  unfold String.rev. rewrite rev_app_snoc. by eexists.
Qed.

Lemma lstrip_head (s : string) (c : ascii) (r : string) :
  Py.lstrip s = String c r -> Py.is_space c = false.
Proof.
  unfold Py.lstrip. induction s as [|a s IH]; [done|]. cbn.
  destruct (Py.is_space a) eqn:Ha; [done|]. by intros [= <- _].
Qed.

Lemma lstrip_keeps (c : ascii) (s : string) :
  Py.is_space c = false -> Py.lstrip (String c s) = String c s.
Proof. intros Hc. unfold Py.lstrip. cbn. by rewrite Hc. Qed.

(** A stripped text is empty or starts with a character that is not white
    space. *)
Lemma strip_head (s : string) (c : ascii) (r : string) :
  Py.strip s = String c r -> Py.is_space c = false.
Proof.
  unfold Py.strip. destruct (Py.lstrip s) as [|c' r'] eqn:Hl; [done|].
  pose proof (lstrip_head _ _ _ Hl) as Hc'.
  destruct (rstrip_head c' r' Hc') as [r'' ->]. by intros [= <- _].
Qed.

Lemma strip_keeps_head (c : ascii) (s : string) :
  Py.is_space c = false -> exists r, Py.strip (String c s) = String c r.
Proof.
  intros Hc. unfold Py.strip. rewrite lstrip_keeps by done. by apply rstrip_head.
Qed.

Lemma lstrip_empty (s : string) :
  Py.lstrip s = EmptyString ->
  forall c, In c (list_ascii_of_string s) -> Py.is_space c = true.
Proof.
  unfold Py.lstrip. induction s as [|a s IH]; [done|]. cbn.
  destruct (Py.is_space a) eqn:Ha; [|done].
  intros Hs c [<-|Hc]; [done|by apply IH].
Qed.

Lemma lstrip_blank (s : string) :
  (forall c, In c (list_ascii_of_string s) -> Py.is_space c = true) ->
  Py.lstrip s = EmptyString.
Proof.
  induction s as [|c s IH]; intros Hs; [done|].
  unfold Py.lstrip in *. simpl. rewrite (Hs c) by (simpl; auto).
  apply IH. intros c' Hc'. apply Hs. simpl. auto.
Qed.

(** [strip] gives the empty text exactly on a text of white space. *)
Lemma strip_empty_iff (s : string) :
  Py.strip s = EmptyString
  <-> forall c, In c (list_ascii_of_string s) -> Py.is_space c = true.
Proof.
  split.
  - intros Hs. apply lstrip_empty. unfold Py.strip in Hs.
    destruct (Py.lstrip s) as [|c r] eqn:Hl; [done|].
    destruct (rstrip_head c r (lstrip_head _ _ _ Hl)) as [r' Hr].
    by rewrite Hr in Hs.
  - intros Hs. unfold Py.strip. by rewrite lstrip_blank.
Qed.

Lemma strip_strip_empty (s : string) :
  Py.strip (Py.strip s) = EmptyString <-> Py.strip s = EmptyString.
Proof.
  split; [|by intros ->].
  destruct (Py.strip s) as [|c r] eqn:Hs; [done|].
  destruct (strip_keeps_head c r (strip_head _ _ _ Hs)) as [r' ->]. done.
Qed.

(** The first line of a text that starts with a character other than the
    separator starts with that character. *)
Lemma split_head (sep c : ascii) (s : string) :
  Ascii.eqb c sep = false ->
  exists h t, Py.split sep (String c s) = String c h :: t.
Proof.
  intros Hc. cbn. rewrite Hc. destruct (Py.split sep s) as [|h t]; by eexists _, _.
Qed.

End StripFacts.

(** ** Working memory *)

Section WorkingFacts.
Import Working.

Ltac by_message_type m :=
  destruct m as [[] ?]; unfold counts, _update_metadata, forget, of_type, isinstance;
  cbn [msg_type MessageType_eqb total_messages system_prompts user_messages ai_messages];
  rewrite ?List.filter_app, ?length_app; cbn [List.filter isinstance msg_type MessageType_eqb];
  rewrite ?length_app; cbn [length]; f_equal; lia.

Lemma store_max_size wm m : max_size (store wm m) = max_size wm.
Proof. reflexivity. Qed.

Lemma fold_store_max_size ms wm : max_size (fold_left store ms wm) = max_size wm.
Proof.
  revert wm. induction ms as [|m ms IH]; intros wm; simpl; [done|].
  by rewrite IH.
Qed.

(** With a capacity of at least one, [store] keeps the last [C] of the
    messages it was given plus the new one. *)
Lemma store_messages wm m (C : Z) :
  max_size wm = Some C -> 1 <= C ->
  _messages (store wm m)
  = drop (length (_messages wm ++ [m]) - Z.to_nat C) (_messages wm ++ [m]).
Proof.
  intros HC Hpos. unfold store. rewrite HC. simpl.
  unfold Py.truthy_int.
  destruct (Z.eqb_spec C 0) as [|_]; [lia|]. simpl.
  destruct (Z.ltb_spec C (Z.of_nat (length (_messages wm ++ [m])))) as [Hlt|Hge].
  - apply slice_from_last. lia.
  - replace (length (_messages wm ++ [m]) - Z.to_nat C)%nat with 0%nat by lia.
    done.
Qed.

Lemma drop_last_snoc (l : list BaseMessage) (m : BaseMessage) (C : nat) :
  (1 <= C)%nat ->
  drop (length (drop (length l - C) l ++ [m]) - C) (drop (length l - C) l ++ [m])
  = drop (length (l ++ [m]) - C) (l ++ [m]).
Proof.
  intros HC. rewrite !length_app, length_drop. simpl.
  destruct (decide (length l < C)%nat) as [Hlt|Hge].
  - replace (length l - C)%nat with 0%nat by lia. simpl.
    by replace (length l - 0 + 1 - C)%nat with (length l + 1 - C)%nat by lia.
  - replace (length l - (length l - C) + 1 - C)%nat with 1%nat by lia.
    rewrite (drop_app_le l [m] (length l + 1 - C)) by lia.
    rewrite drop_app_le by (rewrite length_drop; lia).
    rewrite drop_drop. do 2 f_equal. lia.
Qed.

Lemma fold_store_messages (C : Z) (ms : list BaseMessage) :
  1 <= C ->
  _messages (fold_left store ms (init (Some C)))
  = drop (length ms - Z.to_nat C) ms.
Proof.
  intros HC. induction ms as [|m ms IH] using rev_ind; [done|].
  rewrite fold_left_app. cbn [fold_left].
  rewrite (store_messages _ _ C); [|by rewrite fold_store_max_size|done].
  rewrite IH. apply drop_last_snoc. lia.
Qed.

Lemma run_appends ops ms wm :
  mapM appended ops = Some ms -> run wm ops = fold_left store ms wm.
Proof.
  revert ms wm. induction ops as [|op ops IH]; intros ms wm H; simpl in H.
  - by injection H as <-.
  - destruct (appended op) as [m|] eqn:Hop; simpl in H; [|done].
    destruct (mapM appended ops) as [ms'|] eqn:Hops; simpl in H; [|done].
    injection H as <-. simpl. rewrite <- (IH ms' _ eq_refl).
    by destruct op; simpl in Hop; try injection Hop as <-.
Qed.

(** C3.  For a capacity [C >= 1], after any sequence of [N] appends (through
    [store], [store_user], [store_ai], [store_system] or [store_semantic]) to
    an empty working memory, the list holds [min N C] messages: the last
    [min N C] appended ones, in the order they were appended, whatever their
    roles. *)
Theorem bounded_log (C : Z) (ops : list Op) (ms : list BaseMessage) :
  1 <= C ->
  mapM appended ops = Some ms ->
  let wm := run (init (Some C)) ops in
  length (_messages wm) = Nat.min (length ms) (Z.to_nat C)
  /\ _messages wm = drop (length ms - Nat.min (length ms) (Z.to_nat C)) ms.
Proof.
  intros HC Hops wm. subst wm.
  rewrite (run_appends _ _ _ Hops), fold_store_messages by done.
  split.
  - rewrite length_drop. lia.
  - f_equal. lia.
Qed.

Lemma bounded_log_witness :
  Working._messages
    (run (init (Some 3))
       [OpStoreUser "a"; OpStoreAi "b"; OpStoreUser "c"; OpStoreAi "d"])
  = [mkMessage AIMessage "b"; mkMessage HumanMessage "c"; mkMessage AIMessage "d"].
Proof.
  pose proof (bounded_log 3
    [OpStoreUser "a"; OpStoreAi "b"; OpStoreUser "c"; OpStoreAi "d"]
    [mkMessage HumanMessage "a"; mkMessage AIMessage "b";
     mkMessage HumanMessage "c"; mkMessage AIMessage "d"]
    ltac:(lia) eq_refl) as [_ H].
  exact H.
Defined.

Lemma counters_consistent_counts wm :
  counters_consistent wm <-> _metadata wm = counts (_messages wm).
Proof.
  unfold counters_consistent, count_type, counts.
  destruct (_metadata wm) as [t s u a]; simpl. split.
  - by intros (-> & -> & -> & ->).
  - by intros [= -> -> -> ->].
Qed.

Lemma update_metadata_counts l m :
  _update_metadata (counts l) m = counts (l ++ [m]).
Proof. by_message_type m. Qed.

Lemma forget_counts kept r rs :
  forget (counts (kept ++ r :: rs)) r = counts (kept ++ rs).
Proof. by_message_type r. Qed.

Lemma forget_all removed kept :
  fold_left forget removed (counts (kept ++ removed)) = counts kept.
Proof.
  induction removed as [|r rs IH]; simpl.
  - by rewrite app_nil_r.
  - by rewrite forget_counts.
Qed.

(** [store] keeps the counters right as long as it does not evict. *)
Lemma store_consistent wm m :
  counters_consistent wm ->
  _messages (store wm m) = _messages wm ++ [m] ->
  counters_consistent (store wm m).
Proof.
  rewrite !counters_consistent_counts. intros Hmd Hkeep.
  rewrite Hkeep. cbn [store _metadata]. rewrite Hmd.
  apply update_metadata_counts.
Qed.

Lemma clear_consistent wm : counters_consistent (clear wm).
Proof. by apply counters_consistent_counts. Qed.

Lemma remove_last_consistent wm n :
  counters_consistent wm -> counters_consistent (remove_last wm n).
Proof.
  rewrite !counters_consistent_counts. intros Hmd. unfold remove_last.
  destruct (Z.ltb_spec 0 n) as [Hn|]; [|done]. simpl.
  destruct (n <=? Z.of_nat (length (_messages wm))); [|done].
  cbn [_messages _metadata]. rewrite Hmd.
  rewrite <- (slice_split (_messages wm) n Hn) at 2.
  apply forget_all.
Qed.

(** A memory without a capacity ([max_size] is [None] or 0) never evicts. *)
Lemma store_unbounded wm m :
  Py.truthy_opt_int (max_size wm) = false ->
  _messages (store wm m) = _messages wm ++ [m].
Proof.
  unfold store, Py.truthy_opt_int. destruct (max_size wm) as [n|]; [|done].
  by intros ->.
Qed.

Lemma apply_max_size wm op : max_size (apply wm op) = max_size wm.
Proof.
  destruct op; try reflexivity. unfold apply, remove_last.
  by destruct (_ && _).
Qed.

Lemma apply_consistent_unbounded wm op :
  Py.truthy_opt_int (max_size wm) = false ->
  counters_consistent wm -> counters_consistent (apply wm op).
Proof.
  intros Hcap Hwm.
  destruct op; simpl;
    try (apply store_consistent; [done|by apply store_unbounded]).
  - apply clear_consistent.
  - by apply remove_last_consistent.
Qed.

(** Where nothing is ever evicted the counters follow the list through every
    sequence of operations. *)
Lemma run_consistent_unbounded wm ops :
  Py.truthy_opt_int (max_size wm) = false ->
  counters_consistent wm -> counters_consistent (run wm ops).
Proof.
  revert wm. induction ops as [|op ops IH]; intros wm Hcap Hwm; [done|].
  simpl. apply IH.
  - by rewrite apply_max_size.
  - by apply apply_consistent_unbounded.
Qed.

(** An eviction from a full memory leaves the counters where
    [_update_metadata] put them: the evicted message stays counted. *)
Lemma store_evicts_counters wm m (C : Z) :
  max_size wm = Some C -> 1 <= C ->
  length (_messages wm) = Z.to_nat C ->
  counters_consistent wm ->
  total_messages (_metadata (store wm m))
  = Z.of_nat (length (_messages (store wm m))) + 1.
Proof.
  intros HC Hpos Hfull Hwm.
  rewrite (store_messages _ _ C) by done.
  rewrite length_drop, length_app. cbn [store _metadata length].
  apply counters_consistent_counts in Hwm. rewrite Hwm.
  destruct m as [[] ?]; unfold _update_metadata, isinstance; simpl; lia.
Qed.

(** Whatever the capacity, the counters of a memory filled by [store] count
    every message ever stored, evicted or not. *)
Lemma fold_store_metadata cap (ms : list BaseMessage) :
  _metadata (fold_left store ms (init cap)) = counts ms.
Proof.
  induction ms as [|m ms IH] using rev_ind; [done|].
  rewrite fold_left_app. cbn [fold_left store _metadata].
  rewrite IH. apply update_metadata_counts.
Qed.

(** So the counters are off as soon as more messages were stored than the
    capacity holds. *)
Lemma counters_inconsistent_past_capacity (C : Z) (ms : list BaseMessage) :
  1 <= C -> (Z.to_nat C < length ms)%nat ->
  ~ counters_consistent (fold_left store ms (init (Some C))).
Proof.
  intros HC Hlen [Htotal _]. revert Htotal.
  rewrite fold_store_metadata, fold_store_messages by done.
  cbn [counts total_messages]. rewrite length_drop. lia.
Qed.

(** C2.  The counters do not follow an eviction.  A memory of capacity 1 that
    stores two user messages holds one message, while [total_messages] and
    [user_messages] both read 2: the counters are not the counts of the list. *)
Theorem counters_after_eviction :
  let wm := run (init (Some 1)) [OpStoreUser "a"; OpStoreUser "b"] in
  _messages wm = [mkMessage HumanMessage "b"]
  /\ total_messages (_metadata wm) = 2
  /\ user_messages (_metadata wm) = 2
  /\ count_type HumanMessage wm = 1
  /\ ~ counters_consistent wm.
Proof.
  simpl. repeat split; try reflexivity.
  intros (Htotal & _). vm_compute in Htotal. discriminate.
Qed.

(** [retrieve] with a positive limit keeps the last [limit] messages of the
    filtered sequence. *)
Lemma retrieve_limit_positive wm (n : Z) t :
  0 < n ->
  retrieve wm {| kw_limit := Some n; kw_type := t |}
  = let all := retrieve wm {| kw_limit := None; kw_type := t |} in
    drop (length all - Z.to_nat n) all.
Proof.
  intros Hn. unfold retrieve. cbn [kw_limit kw_type].
  unfold Py.truthy_int. destruct (Z.eqb_spec n 0) as [|_]; [lia|].
  cbn [negb]. by rewrite slice_from_last.
Qed.

(** C10.  [retrieve] with [limit = 0] gives what it gives with no limit: the
    whole message list when no type is asked for, and all the messages of the
    asked type otherwise; never a list cut to zero messages. *)
Theorem retrieve_limit_zero wm :
  (forall t, retrieve wm {| kw_limit := Some 0; kw_type := t |}
             = retrieve wm {| kw_limit := None; kw_type := t |})
  /\ retrieve wm {| kw_limit := Some 0; kw_type := None |} = _messages wm
  /\ retrieve wm {| kw_limit := Some 0; kw_type := Some "system" |}
     = of_type SystemMessage (_messages wm)
  /\ retrieve wm {| kw_limit := Some 0; kw_type := Some "user" |}
     = of_type HumanMessage (_messages wm)
  /\ retrieve wm {| kw_limit := Some 0; kw_type := Some "ai" |}
     = of_type AIMessage (_messages wm).
Proof. repeat split. Qed.

End WorkingFacts.

(** ** Procedural memory *)

Section ProceduralFacts.
Import Procedural.

Lemma contiguous_nil : contiguous [].
Proof. intros i r H. by rewrite lookup_nil in H. Qed.

Lemma contiguous_snoc rs r :
  contiguous rs -> index r = Z.of_nat (length rs) + 1 -> contiguous (rs ++ [r]).
Proof.
  intros Hrs Hr i r' Hi.
  destruct (decide (i < length rs)%nat) as [Hlt|Hge].
  - rewrite lookup_app_l in Hi by done. by apply Hrs.
  - rewrite lookup_app_r in Hi by lia.
    destruct (i - length rs)%nat as [|k] eqn:Hk; simpl in Hi; [|done].
    injection Hi as <-. rewrite Hr. f_equal. lia.
Qed.

Lemma contiguous_take n rs : contiguous rs -> contiguous (take n rs).
Proof.
  intros Hrs i r Hi. apply lookup_take_Some in Hi as [Hi _]. by apply Hrs.
Qed.

Lemma parse_lines_contiguous lines acc :
  contiguous acc -> contiguous (parse_lines lines acc).
Proof.
  revert acc. induction lines as [|line rest IH]; intros acc Hacc; simpl; [done|].
  destruct (Py.truthy_str (Py.strip line)); simpl; [|by apply IH].
  destruct (split_rule _) as [instruction rationale].
  apply IH. by apply contiguous_snoc.
Qed.

Lemma parse_rules_contiguous text : contiguous (_parse_rules text).
Proof. apply parse_lines_contiguous, contiguous_nil. Qed.

Lemma enumerate_lookup {A} (l : list A) (start : Z) (i : nat) :
  Py.enumerate l start !! i = (fun x => (start + Z.of_nat i, x)) <$> l !! i.
Proof.
  revert start i. induction l as [|x l IH]; intros start [|i]; simpl; try done.
  - do 2 f_equal. lia.
  - rewrite IH. destruct (l !! i); simpl; [|done]. do 2 f_equal. lia.
Qed.

Lemma enumerate_length {A} (l : list A) (start : Z) :
  length (Py.enumerate l start) = length l.
Proof. revert start. induction l as [|x l IH]; intros start; simpl; [done|]. by rewrite IH. Qed.

Lemma reindex_contiguous rs : contiguous (reindex rs).
Proof.
  intros i r Hi. unfold reindex in Hi.
  rewrite list_lookup_fmap, enumerate_lookup in Hi.
  destruct (rs !! i) as [r0|]; simpl in Hi; [|done].
  injection Hi as <-. simpl. lia.
Qed.

Lemma reindex_length rs : length (reindex rs) = length rs.
Proof. unfold reindex. by rewrite length_map, enumerate_length. Qed.

Lemma pop_at_length {A} (i : nat) (l : list A) :
  (i < length l)%nat -> length (pop_at i l) = (length l - 1)%nat.
Proof.
  intros Hi. unfold pop_at. rewrite length_app, length_take, length_drop. lia.
Qed.

Lemma save_rules_rules pm : rules (_save_rules pm).1 = rules pm.
Proof. unfold _save_rules. by destruct (writable _). Qed.

Lemma save_rules_writable pm :
  writable (file_path pm) = true ->
  _save_rules pm
  = ({| rules := rules pm;
        file_path := {| text := Some (Py.join Py.nl (map rule_line (rules pm)));
                        writable := true;
                        writes := S (writes (file_path pm)) |};
        last_updated := last_updated pm |}, Ok tt).
Proof. unfold _save_rules. by intros ->. Qed.

Lemma parse_lines_length lines acc :
  (length acc <= length (parse_lines lines acc))%nat.
Proof.
  revert acc. induction lines as [|line rest IH]; intros acc; simpl; [done|].
  destruct (Py.truthy_str (Py.strip line)); simpl; [|apply IH].
  destruct (split_rule _) as [instruction rationale].
  etrans; [|apply IH]. rewrite length_app. simpl. lia.
Qed.

(** The texts that parse to no rule at all are the blank ones: nothing but
    white space, line breaks included. *)
Lemma parse_rules_nil_iff text :
  _parse_rules text = []
  <-> forall c, In c (list_ascii_of_string text) -> Py.is_space c = true.
Proof.
  rewrite <- strip_empty_iff. unfold _parse_rules. split.
  - destruct (Py.strip text) as [|c r] eqn:Hs; [done|].
    pose proof (strip_head _ _ _ Hs) as Hc.
    destruct (split_head Py.LF c r) as (h & t & ->).
    { destruct (Ascii.eqb_spec c Py.LF) as [->|]; [done|done]. }
    cbn [parse_lines].
    destruct (strip_keeps_head c h Hc) as [r' ->]. cbn [Py.truthy_str negb].
    destruct (split_rule _) as [instruction rationale].
    intros Hnil. pose proof (parse_lines_length t
      ([] ++ [ {| index := Z.of_nat (length (@nil ProceduralRule)) + 1;
                  instruction := Py.strip instruction;
                  rationale := Py.strip rationale; category := None |} ])) as Hlen.
    rewrite Hnil in Hlen. simpl in Hlen. lia.
  - by intros ->.
Qed.

(** X9.  In [update] the reply is stripped before it is parsed. *)
Lemma parse_stripped_nil_iff reply :
  _parse_rules (Py.strip reply) = []
  <-> forall c, In c (list_ascii_of_string reply) -> Py.is_space c = true.
Proof.
  rewrite parse_rules_nil_iff, <- !strip_empty_iff. apply strip_strip_empty.
Qed.

(** C4.  When the reply of the model parses to no rule, [update] returns
    normally and leaves the whole store as it was: the same rule list, the same
    file (not written), the same [last_updated]. *)
Theorem update_without_rules (llm : Llm.ChatModel) (now : Z) (pm : ProceduralMemory)
    (what_worked what_to_avoid : list string) (reply : string) :
  llm (Llm.InputStr (_create_update_prompt pm what_worked what_to_avoid)) = Ok reply ->
  _parse_rules (Py.strip reply) = [] ->
  update llm now pm what_worked what_to_avoid = (pm, Ok tt)
  /\ rules (update llm now pm what_worked what_to_avoid).1 = rules pm
  /\ writes (file_path (update llm now pm what_worked what_to_avoid).1)
     = writes (file_path pm).
Proof.
  intros Hreply Hparse.
  assert (update llm now pm what_worked what_to_avoid = (pm, Ok tt)) as ->; [|done].
  unfold update. by rewrite Hreply, Hparse.
Qed.

Lemma update_without_rules_witness :
  update (fun _ => Ok blank_reply) 7 seeded ["kept it short"] ["N/A"] = (seeded, Ok tt)
  /\ rules (update (fun _ => Ok blank_reply) 7 seeded ["kept it short"] ["N/A"]).1
     = _get_default_rules
  /\ writes (file_path (update (fun _ => Ok blank_reply) 7 seeded
                          ["kept it short"] ["N/A"]).1) = 0%nat.
Proof.
  apply (update_without_rules (fun _ => Ok blank_reply) 7 seeded
           ["kept it short"] ["N/A"] blank_reply).
  - reflexivity.
  - vm_compute. reflexivity.
Defined.

Lemma update_rules llm now pm what_worked what_to_avoid reply :
  llm (Llm.InputStr (_create_update_prompt pm what_worked what_to_avoid)) = Ok reply ->
  _parse_rules (Py.strip reply) <> [] ->
  rules (update llm now pm what_worked what_to_avoid).1
  = take 10 (_parse_rules (Py.strip reply)).
Proof.
  intros Hreply Hparse. unfold update. rewrite Hreply.
  destruct (_parse_rules (Py.strip reply)) as [|r rs] eqn:Hrs; [done|].
  cbn [Py.truthy_list].
  pose proof (save_rules_rules (set_rules pm (take 10 (r :: rs)))) as Hsave.
  destruct (_save_rules _) as [pm' [[]|e]]; simpl in *; done.
Qed.

Lemma remove_rule_rules pm (index : Z) :
  1 <= index <= Z.of_nat (length (rules pm)) ->
  rules (remove_rule pm index).1
  = reindex (pop_at (Z.to_nat (index - 1)) (rules pm)).
Proof.
  intros Hidx. unfold remove_rule.
  destruct (Z.leb_spec 0 (index - 1)); [|lia].
  destruct (Z.ltb_spec (index - 1) (Z.of_nat (length (rules pm)))); [|lia].
  simpl. by rewrite save_rules_rules.
Qed.

Lemma objects_save_listed o :
  Objects.listed (Objects._save_rules o).1 = Objects.listed o.
Proof. unfold Objects._save_rules. by destruct (_save_rules _). Qed.

Lemma listed_assign o rs : Objects.listed (Objects.assign o rs) = rs.
Proof.
  unfold Objects.listed, Objects.assign. cbn [Objects.heap Objects.held].
  apply list_eq. intros i. rewrite list_lookup_fmap.
  destruct (decide (i < length rs)%nat) as [Hi|Hi].
  - rewrite lookup_seq_lt by done. cbn [fmap option_fmap option_map].
    destruct (Nat.leb_spec (Objects.fresh o) (Objects.fresh o + i)); [|lia].
    replace (Objects.fresh o + i - Objects.fresh o)%nat with i by lia.
    destruct (lookup_lt_is_Some_2 rs i Hi) as [r Hr].
    by rewrite Hr, (nth_lookup_Some _ _ _ _ Hr).
  - rewrite lookup_seq_ge by lia. by rewrite lookup_ge_None_2 by lia.
Qed.

(** [update] builds the rules it keeps, so the list it leaves is the same by
    value and by reference. *)
Lemma objects_update_listed llm now o what_worked what_to_avoid reply :
  llm (Llm.InputStr (_create_update_prompt (Objects.current o) what_worked what_to_avoid))
  = Ok reply ->
  _parse_rules (Py.strip reply) <> [] ->
  Objects.listed (Objects.update llm now o what_worked what_to_avoid).1
  = take 10 (_parse_rules (Py.strip reply)).
Proof.
  intros Hreply Hparse. unfold Objects.update. rewrite Hreply.
  destruct (_parse_rules (Py.strip reply)) as [|r rs] eqn:Hrs; [done|].
  cbn [Py.truthy_list].
  pose proof (objects_save_listed (Objects.assign o (take 10 (r :: rs)))) as Hsave.
  rewrite listed_assign in Hsave.
  destruct (Objects._save_rules _) as [o' [[]|e]]; by cbn in *.
Qed.

(** The renumbering loop leaves alone every object that the list does not
    refer to. *)
Lemma renumber_other (h : nat -> ProceduralRule) (refs : list nat) (start : Z) (a : nat) :
  a ∉ refs ->
  fold_left (fun h '(i, address) => Objects.set_index h address i)
    (Py.enumerate refs start) h a = h a.
Proof.
  revert h start. induction refs as [|r refs IH]; intros h start Ha; [done|].
  cbn [Py.enumerate fold_left]. rewrite IH by set_solver.
  unfold Objects.set_index. destruct (Nat.eqb_spec a r); [set_solver|done].
Qed.

(** On references that are all different, the loop numbers the positions. *)
Lemma renumber_distinct (h : nat -> ProceduralRule) (refs : list nat) (start : Z) :
  NoDup refs ->
  map (fold_left (fun h '(i, address) => Objects.set_index h address i)
         (Py.enumerate refs start) h) refs
  = map (fun '(i, rule) =>
           {| index := i; instruction := instruction rule;
              rationale := rationale rule; category := category rule |})
        (Py.enumerate (map h refs) start).
Proof.
  intros Hnd. revert h start. induction Hnd as [|r refs Hr Hnd IH]; intros h start; [done|].
  cbn [Py.enumerate fold_left map]. f_equal.
  - rewrite renumber_other by done. unfold Objects.set_index. by rewrite Nat.eqb_refl.
  - rewrite IH. do 2 f_equal. apply map_ext_in. intros a Ha.
    unfold Objects.set_index. destruct (Nat.eqb_spec a r) as [->|]; [|done].
    by apply list_elem_of_In in Ha.
Qed.

(** [remove_rule] on a list that holds every object once: the list it leaves
    is the one [reindex] gives. *)
Lemma objects_remove_rule_listed o (index : Z) :
  1 <= index <= Z.of_nat (length (Objects.held o)) ->
  NoDup (Objects.held o) ->
  Objects.listed (Objects.remove_rule o index).1
  = reindex (pop_at (Z.to_nat (index - 1)) (Objects.listed o)).
Proof.
  intros Hidx Hnd. unfold Objects.remove_rule.
  destruct (Z.leb_spec 0 (index - 1)); [|lia].
  destruct (Z.ltb_spec (index - 1) (Z.of_nat (length (Objects.held o)))); [|lia].
  cbn [andb]. rewrite objects_save_listed.
  unfold Objects.listed, Objects.renumber, reindex. cbn [Objects.heap Objects.held].
  rewrite renumber_distinct.
  - unfold pop_at. by rewrite map_app, <- !fmap_take, <- !fmap_drop.
  - unfold pop_at. rewrite <- delete_take_drop.
    eapply sublist_NoDup; [done|apply sublist_delete].
Qed.

Lemma objects_remove_rule_length o (index : Z) :
  1 <= index <= Z.of_nat (length (Objects.held o)) ->
  length (Objects.listed (Objects.remove_rule o index).1)
  = (length (Objects.listed o) - 1)%nat.
Proof.
  intros Hidx. unfold Objects.remove_rule.
  destruct (Z.leb_spec 0 (index - 1)); [|lia].
  destruct (Z.ltb_spec (index - 1) (Z.of_nat (length (Objects.held o)))); [|lia].
  cbn [andb]. rewrite objects_save_listed. unfold Objects.listed.
  cbn [Objects.heap Objects.held]. rewrite !length_map, pop_at_length; lia.
Qed.

(** C5, as amended.  After an [update] whose reply parses to at least one
    rule, the list is the first 10 parsed rules: at most 10, numbered 1, 2, ...
    After a [remove_rule] with a valid index the list is one rule shorter than
    before; it has at most 10 rules when it had at most 11 before; and it is
    numbered 1, 2, ... when no rule object sat at two positions of the list
    ([remove_rule] numbers the objects, not the positions). *)
Theorem indices_after_change (c : Objects.Change) (o : Objects.Memory) :
  Objects.applies c o ->
  match c with
  | Objects.ByUpdate llm _ what_worked what_to_avoid =>
      contiguous (Objects.listed (Objects.change c o))
      /\ (length (Objects.listed (Objects.change c o)) <= 10)%nat
      /\ exists reply,
           llm (Llm.InputStr
                  (_create_update_prompt (Objects.current o) what_worked what_to_avoid))
           = Ok reply
           /\ Objects.listed (Objects.change c o) = take 10 (_parse_rules (Py.strip reply))
  | Objects.ByRemoveRule _ =>
      length (Objects.listed (Objects.change c o))
      = (length (Objects.listed o) - 1)%nat
      /\ ((length (Objects.listed o) <= 11)%nat ->
          (length (Objects.listed (Objects.change c o)) <= 10)%nat)
      /\ (NoDup (Objects.held o) -> contiguous (Objects.listed (Objects.change c o)))
  end.
Proof.
  destruct c as [llm now ww wa|index]; cbn [Objects.applies Objects.change].
  - intros (reply & Hreply & Hparse).
    rewrite (objects_update_listed _ _ _ _ _ _ Hreply Hparse). split.
    + apply contiguous_take, parse_rules_contiguous.
    + split; [rewrite length_take; lia|by exists reply].
  - intros Hidx. rewrite (objects_remove_rule_length _ _ Hidx).
    split; [done|]. split; [lia|].
    intros Hnd. rewrite (objects_remove_rule_listed _ _ Hidx Hnd).
    apply reindex_contiguous.
Qed.

Lemma indices_after_change_witness :
  contiguous (Objects.listed (Objects.change (Objects.ByRemoveRule 3) (Objects.apart twelve)))
  /\ length (Objects.listed (Objects.change (Objects.ByRemoveRule 3) (Objects.apart twelve)))
     = 11%nat.
Proof.
  destruct (indices_after_change (Objects.ByRemoveRule 3) (Objects.apart twelve))
    as (H1 & _ & H2).
  - vm_compute. split; discriminate.
  - split; [apply H2; apply NoDup_seq|exact H1].
Defined.

(** C5, as stated, fails: [remove_rule] on a list of twelve rules leaves
    eleven, more than the cap of 10. *)
Lemma cap_after_remove_rule_fails :
  ~ (forall c o, Objects.applies c o ->
       (length (Objects.listed (Objects.change c o)) <= 10)%nat
       /\ contiguous (Objects.listed (Objects.change c o))).
Proof.
  intros H.
  destruct (H (Objects.ByRemoveRule 1) (Objects.apart twelve)) as [Hcap _].
  - vm_compute. split; discriminate.
  - vm_compute in Hcap. lia.
Qed.

(** One object at two positions: after the caller has handed the same rule
    to [store] twice, [remove_rule(1)] numbers that object twice, and both
    positions show the last number. *)
Example remove_rule_shared_object :
  map index (Objects.listed stored_twice) = [1; 2; 3; 4; 5; 6; 7; 8; 9; 10; 11; 11]
  /\ map index (Objects.listed (Objects.remove_rule stored_twice 1).1)
     = [1; 2; 3; 4; 5; 6; 7; 8; 9; 11; 11]
  /\ ~ contiguous (Objects.listed (Objects.remove_rule stored_twice 1).1).
Proof.
  split; [by vm_compute|]. split; [by vm_compute|].
  intros H.
  assert (exists r, Objects.listed (Objects.remove_rule stored_twice 1).1 !! 9%nat = Some r
                    /\ index r = 11) as (r & Hr & Hi) by (eexists; split; by vm_compute).
  specialize (H 9%nat r Hr). lia.
Qed.

(** The two readings of the rule list agree on a list of distinct objects:
    by value, [remove_rule] leaves what it leaves by reference. *)
Lemma objects_remove_rule_current o (index : Z) :
  NoDup (Objects.held o) ->
  rules (Objects.current (Objects.remove_rule o index).1)
  = rules (remove_rule (Objects.current o) index).1.
Proof.
  intros Hnd. cbn [Objects.current rules].
  destruct (decide (1 <= index <= Z.of_nat (length (Objects.held o)))) as [Hidx|Hidx].
  - rewrite objects_remove_rule_listed, remove_rule_rules; try done.
    cbn [Objects.current rules]. unfold Objects.listed. by rewrite length_map.
  - unfold Objects.remove_rule, remove_rule. cbn [Objects.current rules].
    unfold Objects.listed at 2. rewrite length_map.
    destruct (Z.leb_spec 0 (index - 1)), (Z.ltb_spec (index - 1)
      (Z.of_nat (length (Objects.held o)))); try done; lia.
Qed.

(** Twelve parsed lines onto ten rules: the first ten are kept, numbered
    1 to 10. *)
Example update_twelve_lines :
  let pm := (update (fun _ => Ok twelve_lines) 7 seeded [] []).1 in
  length (_parse_rules twelve_lines) = 12%nat
  /\ map index (rules pm) = [1; 2; 3; 4; 5; 6; 7; 8; 9; 10]
  /\ instruction <$> last (rules pm) = Some "Takeaway 10".
Proof. vm_compute. done. Qed.

(** C9.  [add_rule] on a store of [n] rules, whatever [n], appends one rule
    numbered [n + 1] and rewrites the file with all [n + 1] rules; [store]
    appends the rule it is given and rewrites the file in the same way.
    Neither looks at the cap of 10. *)
Theorem add_rule_grows (pm : ProceduralMemory) (instruction rationale : string)
    (category : option string) (rule : ProceduralRule) :
  writable (file_path pm) = true ->
  (exists pm',
      add_rule pm instruction rationale category = (pm', Ok tt)
      /\ rules pm'
         = rules pm ++ [ {| index := Z.of_nat (length (rules pm)) + 1;
                            Procedural.instruction := instruction;
                            Procedural.rationale := rationale;
                            Procedural.category := category |} ]
      /\ length (rules pm') = S (length (rules pm))
      /\ text (file_path pm') = Some (Py.join Py.nl (map rule_line (rules pm')))
      /\ writes (file_path pm') = S (writes (file_path pm)))
  /\ (exists pm',
      store pm (IsRule rule) = (pm', Ok tt)
      /\ rules pm' = rules pm ++ [rule]
      /\ length (rules pm') = S (length (rules pm))
      /\ text (file_path pm') = Some (Py.join Py.nl (map rule_line (rules pm')))
      /\ writes (file_path pm') = S (writes (file_path pm))).
Proof.
  intros Hw. split.
  - eexists. unfold add_rule. rewrite save_rules_writable by done.
    split; [reflexivity|]. simpl. rewrite length_app. simpl.
    repeat split; lia.
  - eexists. unfold store. rewrite save_rules_writable by done.
    split; [reflexivity|]. simpl. rewrite length_app. simpl.
    repeat split; lia.
Qed.

Lemma add_rule_grows_witness :
  exists pm',
    add_rule seeded "Greet the user" "Sets the tone" None = (pm', Ok tt)
    /\ length (rules seeded) = 10%nat
    /\ length (rules pm') = 11%nat
    /\ index <$> last (rules pm') = Some 11.
Proof.
  destruct (add_rule_grows seeded "Greet the user" "Sets the tone" None
              (mkRule 1 "x" "y" None) eq_refl)
    as [(pm' & Hrun & Hrules & Hlen & _) _].
  exists pm'. split; [exact Hrun|]. split; [reflexivity|]. split; [exact Hlen|].
  rewrite Hrules. rewrite last_snoc. reflexivity.
Defined.

End ProceduralFacts.

(** ** Semantic memory *)

Section SortFacts.
Context {A : Type} (key : A -> Z).
Implicit Types l : list A.

Lemma insert_sorted_perm x l : Permutation (x :: l) (Semantic.insert_sorted key x l).
Proof.
  induction l as [|y l IH]; simpl; [done|].
  destruct (key x <=? key y); [done|].
  rewrite perm_swap. by constructor.
Qed.

Lemma sort_by_perm l : Permutation l (Semantic.sort_by key l).
Proof.
  induction l as [|x l IH]; simpl; [done|].
  rewrite <- insert_sorted_perm. by constructor.
Qed.

Lemma insert_sorted_sorted x l :
  StronglySorted Z.le (map key l) ->
  StronglySorted Z.le (map key (Semantic.insert_sorted key x l)).
Proof.
  induction l as [|y l IH]; simpl; intros Hl.
  - repeat constructor.
  - apply StronglySorted_inv in Hl as [Hl Hy].
    destruct (Z.leb_spec (key x) (key y)) as [Hle|Hgt]; simpl.
    + constructor; [by constructor|].
      constructor; [done|].
      eapply Forall_impl; [exact Hy|]. intros; simpl in *; lia.
    + constructor; [by apply IH|].
      rewrite <- (insert_sorted_perm x l). simpl.
      constructor; [lia|done].
Qed.

Lemma sort_by_sorted l : StronglySorted Z.le (map key (Semantic.sort_by key l)).
Proof.
  induction l as [|x l IH]; simpl; [constructor|].
  by apply insert_sorted_sorted.
Qed.

(** Stability: elements with the same key keep their order. *)
Lemma insert_sorted_stable (k : Z) x l :
  StronglySorted Z.le (map key l) ->
  List.filter (fun y => key y =? k) (Semantic.insert_sorted key x l)
  = List.filter (fun y => key y =? k) (x :: l).
Proof.
  induction l as [|y l IH]; intros Hl; [done|].
  apply StronglySorted_inv in Hl as [Hl Hy].
  cbn [Semantic.insert_sorted].
  destruct (Z.leb_spec (key x) (key y)) as [Hle|Hgt]; [done|].
  cbn [List.filter] in *. rewrite (IH Hl).
  destruct (Z.eqb_spec (key x) k), (Z.eqb_spec (key y) k); try done. lia.
Qed.

Lemma sort_by_stable (k : Z) l :
  List.filter (fun y => key y =? k) (Semantic.sort_by key l)
  = List.filter (fun y => key y =? k) l.
Proof.
  induction l as [|x l IH]; [done|]. cbn [Semantic.sort_by].
  rewrite insert_sorted_stable by apply sort_by_sorted.
  cbn [List.filter]. by rewrite IH.
Qed.

Lemma sorted_nodup_strict (ks : list Z) :
  StronglySorted Z.le ks -> NoDup ks -> StronglySorted Z.lt ks.
Proof.
  induction 1 as [|k ks Hks IH Hall]; intros Hnd; [constructor|].
  apply NoDup_cons in Hnd as [Hk Hnd].
  constructor; [by apply IH|].
  apply Forall_forall. intros k' Hk'.
  assert (k <= k') by (by eapply Forall_forall in Hall).
  assert (k <> k') by (intros ->; done).
  lia.
Qed.

End SortFacts.

Section SemanticFacts.
Import Semantic.

Lemma format_loop_pieces objects contents (start : Z) (acc : list string) :
  Forall2 holds objects contents ->
  format_loop (Py.enumerate objects start) acc
  = Some (acc ++ omap piece (Py.enumerate contents start)).
Proof.
  intros H. revert start acc.
  induction H as [|obj c objects contents Hc _ IH]; intros start acc; simpl.
  - by rewrite app_nil_r.
  - unfold chunk_text. rewrite Hc.
    destruct (Py.truthy_str (Py.strip c)).
    + rewrite IH. by rewrite <- app_assoc.
    + apply IH.
Qed.

Lemma format_chunks_block objects contents :
  Forall2 holds objects contents ->
  _format_chunks objects = Some (labelled_block contents).
Proof.
  intros H. unfold _format_chunks.
  rewrite (format_loop_pieces _ _ _ _ H). simpl.
  unfold labelled_block. by destruct (omap piece _).
Qed.

Lemma pieces_all_kept contents (start : Z) :
  Forall (fun c => Py.strip c = c /\ c <> EmptyString) contents ->
  omap piece (Py.enumerate contents start)
  = map (fun '(i, c) => chunk_label i c) (Py.enumerate contents start).
Proof.
  intros H. revert start. induction H as [|c contents [Hc Hne] _ IH]; intros start; [done|].
  simpl. rewrite Hc. destruct c; [done|]. simpl. by rewrite IH.
Qed.

(** C7, as amended.  [retrieve] returns one block made of the chunks whose
    text is not blank: each is stripped of surrounding white space and put
    under the label [CHUNK k], [k] being its 1-based position among all the
    results; a chunk whose text is empty or blank is left out.  So the block
    is the one the specification describes when no text is blank or padded,
    and it is the empty string when there is no result. *)
Theorem retrieve_block (hybrid : HybridSearch) (query : string) (limit : option Z)
    (objects : list Store.Object) (contents : list string) :
  hybrid query (default SEMANTIC_CHUNK_LIMIT limit) = Ok objects ->
  Forall2 holds objects contents ->
  retrieve hybrid query limit = Ok (labelled_block contents)
  /\ (Forall (fun c => Py.strip c = c /\ c <> EmptyString) contents ->
      retrieve hybrid query limit = Ok (spec_format_chunks contents))
  /\ (objects = [] -> retrieve hybrid query limit = Ok EmptyString).
Proof.
  intros Hq Hc.
  assert (retrieve hybrid query limit = Ok (labelled_block contents)) as Hr.
  { unfold retrieve. by rewrite Hq, (format_chunks_block _ _ Hc). }
  split; [done|]. split.
  - intros Hall. rewrite Hr. f_equal. unfold labelled_block, spec_format_chunks.
    by rewrite pieces_all_kept.
  - intros ->. apply Forall2_nil_inv_l in Hc as ->. exact Hr.
Qed.

Lemma retrieve_block_witness :
  retrieve (fun _ _ => Ok [chunk_object "u0" " alpha "; chunk_object "u1" "beta"])
           "query" None
  = Ok (Py.nl +:+ "CHUNK 1:" +:+ Py.nl +:+ "alpha"
        +:+ Py.nl +:+ "CHUNK 2:" +:+ Py.nl +:+ "beta").
Proof.
  destruct (retrieve_block
              (fun _ _ => Ok [chunk_object "u0" " alpha "; chunk_object "u1" "beta"])
              "query" None
              [chunk_object "u0" " alpha "; chunk_object "u1" "beta"]
              [" alpha "; "beta"]) as [H _].
  - reflexivity.
  - repeat constructor.
  - exact H.
Defined.

(** C7, as stated, fails: of two results, the first with an empty text, only
    the second reaches the block, under the label [CHUNK 2]; the first chunk
    has no label. *)
Lemma retrieve_blank_chunk_unlabelled :
  let objects := [chunk_object "u0" ""; chunk_object "u1" "b"] in
  Forall2 holds objects [""; "b"]
  /\ retrieve (fun _ _ => Ok objects) "query" None
     = Ok (Py.nl +:+ "CHUNK 2:" +:+ Py.nl +:+ "b")
  /\ spec_format_chunks [""; "b"]
     = Py.nl +:+ "CHUNK 1:" +:+ Py.nl +:+ Py.nl +:+ "CHUNK 2:" +:+ Py.nl +:+ "b"
  /\ retrieve (fun _ _ => Ok objects) "query" None <> Ok (spec_format_chunks [""; "b"]).
Proof.
  simpl. split; [repeat constructor|].
  split; [reflexivity|]. split; [reflexivity|].
  vm_compute. discriminate.
Qed.

(** C8, as amended.  [get_by_source] returns the chunks built from what the
    store returned, reordered so that [chunk_index] never decreases; chunks
    with the same index keep the order the store gave them; the order is
    strictly ascending when no two chunks share an index. *)
Theorem get_by_source_sorted (fetch : FetchBySource) (source : string)
    (objects : list Store.Object) (chunks : list SemanticChunk) :
  fetch source = Ok objects ->
  to_chunks objects = Some chunks ->
  exists sorted,
    get_by_source fetch source = Ok sorted
    /\ Permutation chunks sorted
    /\ StronglySorted Z.le (map chunk_index sorted)
    /\ (forall k, List.filter (fun c => chunk_index c =? k) sorted
                  = List.filter (fun c => chunk_index c =? k) chunks)
    /\ (NoDup (map chunk_index chunks) -> StronglySorted Z.lt (map chunk_index sorted)).
Proof.
  intros Hfetch Hchunks. exists (sort_by chunk_index chunks).
  split; [unfold get_by_source; by rewrite Hfetch, Hchunks|].
  split; [apply sort_by_perm|].
  split; [apply sort_by_sorted|].
  split; [intros k; apply sort_by_stable|].
  intros Hnd. apply sorted_nodup_strict; [apply sort_by_sorted|].
  by rewrite <- (Permutation_map chunk_index (sort_by_perm chunk_index chunks)).
Qed.

Lemma get_by_source_sorted_witness :
  exists sorted,
    get_by_source (fun _ => Ok shuffled) "doc.pdf" = Ok sorted
    /\ map chunk_index sorted = [0; 1; 2]
    /\ StronglySorted Z.lt (map chunk_index sorted).
Proof.
  destruct (get_by_source_sorted (fun _ => Ok shuffled) "doc.pdf" shuffled
              [mkChunk "u2" "third" "" 2 []; mkChunk "u0" "first" "" 0 [];
               mkChunk "u1" "second" "" 1 []] eq_refl eq_refl)
    as (sorted & Hrun & _ & _ & _ & Hstrict).
  exists sorted. split; [exact Hrun|].
  split.
  - vm_compute in Hrun. injection Hrun as <-. reflexivity.
  - apply Hstrict. by apply (bool_decide_unpack _).
Defined.

(** C8, as stated, fails: two chunks of one source with the same
    [chunk_index] come back next to each other, so the order is not strictly
    ascending. *)
Lemma get_by_source_not_strict :
  let objects := [indexed_object "u0" "first copy" 0; indexed_object "u1" "second copy" 0] in
  exists sorted,
    get_by_source (fun _ => Ok objects) "doc.pdf" = Ok sorted
    /\ map chunk_index sorted = [0; 0]
    /\ ~ StronglySorted Z.lt (map chunk_index sorted).
Proof.
  simpl. eexists. split; [reflexivity|]. split; [reflexivity|].
  simpl. intros H. apply StronglySorted_inv in H as [_ H].
  apply Forall_cons in H as [H _]. lia.
Qed.

End SemanticFacts.

(** ** Episodic memory *)

Section EpisodicFacts.
Import Episodic.

Lemma typed_get {T} (validate : Py.Value -> option T) (d : Dict) key dflt :
  typed validate (d !! key) -> is_Some (validate dflt) ->
  exists t, validate (dict_get d key dflt) = Some t
            /\ (d !! key = None -> validate dflt = Some t).
Proof.
  unfold typed, dict_get. destruct (d !! key) as [v|].
  - intros [t Ht] _. exists t. by split.
  - intros _ [t Ht]. exists t. by split.
Qed.

Lemma validated_typed {T} (validate : Py.Value -> option T) (d : Dict) key dflt :
  is_Some (validate (dict_get d key dflt)) -> typed validate (d !! key).
Proof. unfold typed, dict_get. by destruct (d !! key). Qed.

(** The entry is built, and the write to the store reached, exactly for the
    reflections that are [well_typed]. *)
Lemma entry_built_iff (now conversation : string) (reflection : Dict) :
  is_Some (make_entry now conversation
             (dict_get reflection "context_tags" (Py.VList []))
             (dict_get reflection "conversation_summary" (Py.VStr ""))
             (dict_get reflection "what_worked" (Py.VStr ""))
             (dict_get reflection "what_to_avoid" (Py.VStr "")))
  <-> well_typed reflection.
Proof.
  unfold make_entry, well_typed. split.
  - destruct (Validate.list_str _) eqn:Et; [|by intros [? ?]].
    destruct (Validate.str (dict_get reflection "conversation_summary" _)) eqn:Es;
      [|by intros [? ?]].
    destruct (Validate.str (dict_get reflection "what_worked" _)) eqn:Ew;
      [|by intros [? ?]].
    destruct (Validate.str (dict_get reflection "what_to_avoid" _)) eqn:Ea;
      [|by intros [? ?]].
    intros _. repeat split; eapply validated_typed; by eexists.
  - intros (Htags & Hsum & Hworked & Havoid).
    destruct (typed_get _ _ "context_tags" (Py.VList []) Htags) as (? & -> & _); [by eexists|].
    destruct (typed_get _ _ "conversation_summary" (Py.VStr "") Hsum) as (? & -> & _); [by eexists|].
    destruct (typed_get _ _ "what_worked" (Py.VStr "") Hworked) as (? & -> & _); [by eexists|].
    destruct (typed_get _ _ "what_to_avoid" (Py.VStr "") Havoid) as (? & -> & _); [by eexists|].
    by eexists.
Qed.

(** C6.  When the reflection chain returns a JSON object, the store can be
    written, and every key the object does carry has a value of its type,
    [store] returns normally and adds one object to the collection; a field
    whose key is missing is stored as the empty string ([what_worked],
    [conversation_summary], [what_to_avoid]) or as the empty list
    ([context_tags]). *)
Theorem store_defaults (reflection_chain : ReflectionChain) (now : string)
    (collection : Store.Collection) (messages : list Working.BaseMessage)
    (reflection : Dict) :
  reflection_chain (_format_conversation messages) = Ok (ReflectionDict reflection) ->
  Store.reachable collection = true ->
  well_typed reflection ->
  exists entry,
    store reflection_chain now collection messages
    = (inserted collection (entry_properties entry), Ok tt)
    /\ conversation entry = _format_conversation messages
    /\ (reflection !! "what_worked" = None ->
        what_worked entry = EmptyString
        /\ entry_properties entry !! "what_worked" = Some (Py.VStr ""))
    /\ (reflection !! "conversation_summary" = None ->
        conversation_summary entry = EmptyString
        /\ entry_properties entry !! "conversation_summary" = Some (Py.VStr ""))
    /\ (reflection !! "what_to_avoid" = None ->
        what_to_avoid entry = EmptyString
        /\ entry_properties entry !! "what_to_avoid" = Some (Py.VStr ""))
    /\ (reflection !! "context_tags" = None ->
        context_tags entry = []
        /\ entry_properties entry !! "context_tags" = Some (Py.VList [])).
Proof.
  intros Hchain Hreach (Htags & Hsum & Hworked & Havoid).
  destruct (typed_get _ _ "context_tags" (Py.VList []) Htags) as (tags & Et & Dt); [by eexists|].
  destruct (typed_get _ _ "conversation_summary" (Py.VStr "") Hsum) as (summary & Es & Ds); [by eexists|].
  destruct (typed_get _ _ "what_worked" (Py.VStr "") Hworked) as (worked & Ew & Dw); [by eexists|].
  destruct (typed_get _ _ "what_to_avoid" (Py.VStr "") Havoid) as (avoid & Ea & Da); [by eexists|].
  eexists. split.
  - unfold store. rewrite Hchain. unfold make_entry. rewrite Et, Es, Ew, Ea.
    unfold Store.insert. rewrite Hreach. reflexivity.
  - cbn [conversation what_worked conversation_summary what_to_avoid context_tags].
    split; [done|].
    split; [intros H; specialize (Dw H); injection Dw as <-; done|].
    split; [intros H; specialize (Ds H); injection Ds as <-; done|].
    split; [intros H; specialize (Da H); injection Da as <-; done|].
    intros H; specialize (Dt H); injection Dt as <-; done.
Qed.

Lemma store_defaults_witness :
  exists entry,
    store (fun _ => Ok (ReflectionDict partial_reflection)) "2024-01-01T00:00:00"
          empty_collection one_turn
    = (inserted empty_collection (entry_properties entry), Ok tt)
    /\ what_worked entry = EmptyString
    /\ what_to_avoid entry = EmptyString.
Proof.
  destruct (store_defaults (fun _ => Ok (ReflectionDict partial_reflection))
              "2024-01-01T00:00:00" empty_collection one_turn partial_reflection)
    as (entry & Hrun & _ & Hworked & _ & Havoid & _).
  - reflexivity.
  - reflexivity.
  - vm_compute. repeat split; by eexists.
  - exists entry. split; [exact Hrun|].
    split; [by apply Hworked|by apply Havoid].
Defined.

(** A key that is present with a value of another type is not defaulted:
    the entry is refused and [store] raises. *)
Lemma store_refuses_malformed (reflection_chain : ReflectionChain) (now : string)
    (collection : Store.Collection) (messages : list Working.BaseMessage)
    (reflection : Dict) :
  reflection_chain (_format_conversation messages) = Ok (ReflectionDict reflection) ->
  reflection !! "what_worked" = Some Py.VNone ->
  store reflection_chain now collection messages
  = (collection,
     Err (EpisodicMemoryError
            "Failed to store episodic memory: validation error for EpisodicMemoryEntry")).
Proof.
  intros Hchain Hnone. unfold store. rewrite Hchain.
  unfold make_entry.
  replace (dict_get reflection "what_worked" (Py.VStr "")) with Py.VNone
    by (unfold dict_get; by rewrite Hnone).
  cbn [Validate.str].
  by repeat case_match.
Qed.

End EpisodicFacts.

(** ** The agent *)

Section AgentFacts.
Import Working Agent.

Context {AgentState : Type}.
Variable llm : Llm.ChatModel.
Variable episodic_retrieve : string -> Result (option Episodic.EpisodicMemoryEntry).
Variable hybrid : Semantic.HybridSearch.
Variable provider_initialize : Result unit.
Variable now : Z.

Local Abbreviation process_message :=
  (process_message AgentState llm episodic_retrieve hybrid provider_initialize now).

(** Past the guard, a turn ends in an exception and leaves the agent as it
    was: a retrieval raises, or the lookup of [_create_system_prompt] does. *)
Lemma process_ready_raises (a : MemoryAgent AgentState) (user_input : string) :
  exists e, process_ready AgentState llm episodic_retrieve hybrid a user_input
            = (a, Err e).
Proof.
  unfold process_ready.
  destruct (episodic_retrieve user_input) as [episodic|e]; [|by exists e].
  destruct (Semantic.retrieve hybrid user_input None) as [semantic|e]; [|by exists e].
  by eexists.
Qed.

(** A turn never returns a reply, and it leaves working memory, the state and
    the log of model calls as they were. *)
Lemma process_message_raises (a : MemoryAgent AgentState) (user_input : string) :
  (exists e, (process_message a user_input).2 = Err e)
  /\ working_memory (process_message a user_input).1 = working_memory a
  /\ state (process_message a user_input).1 = state a
  /\ llm_calls (process_message a user_input).1 = llm_calls a.
Proof.
  unfold Agent.process_message, initialize.
  destruct (initialized a); cbn.
  - destruct (process_ready_raises a user_input) as [e ->]. cbn. by eauto.
  - destruct provider_initialize as [[]|e]; [|cbn; by eauto].
    destruct (Procedural.initialize _ _) as [pm [[]|e]]; [|cbn; by eauto].
    match goal with
    | |- context [process_ready _ _ _ _ ?b _] =>
        destruct (process_ready_raises b user_input) as [e ->]
    end.
    cbn. by eauto.
Qed.

End AgentFacts.

Section AgentRun.
Import Working Agent.

(** C1.  The turn stops at its fourth statement.  [process_message] calls
    [self._create_system_prompt], which [MemoryAgent] does not define: on a
    fresh, initialized agent and the text [Hello], with both retrievals
    succeeding and whatever the chat model, the call raises [AttributeError]
    before anything is stored; working memory stays empty, the model is not
    called and no reply is returned. *)
Theorem process_message_hello (llm : Llm.ChatModel) :
  hello llm
  = (fresh_agent,
     Err (AttributeError
            "'MemoryAgent' object has no attribute '_create_system_prompt'"))
  /\ _messages (working_memory (hello llm).1) = []
  /\ llm_calls (hello llm).1 = [].
Proof. repeat split. Qed.

End AgentRun.

(** ** Substrings *)

Section ContainsFacts.

Local Arguments String.append !_ _ / : simpl nomatch.

Lemma prefix_self (p b : string) : String.prefix p (p +:+ b) = true.
Proof.
  induction p as [|x p IH]; cbn; [by destruct b|].
  by destruct (ascii_dec x x).
Qed.

Lemma prefix_drop (p s : string) :
  String.prefix p s = true -> s = p +:+ Py.drop_chars (String.length p) s.
Proof.
  revert s. induction p as [|x p IH]; intros [|y s]; cbn; try done.
  destruct (ascii_dec x y) as [->|]; [|done].
  intros Hp. f_equal. by apply IH.
Qed.

Lemma partition_sound (sub s a b : string) :
  Py.partition sub s = Some (a, b) -> s = a +:+ sub +:+ b.
Proof.
  revert a. induction s as [|c s IH]; intros a; cbn [Py.partition].
  - destruct (String.prefix sub "") eqn:Hp; [|done].
    intros [= <- <-]. by apply prefix_drop.
  - destruct (String.prefix sub (String c s)) eqn:Hp.
    + intros [= <- <-]. by apply prefix_drop.
    + destruct (Py.partition sub s) as [[a' b']|]; [|done].
      intros [= <- <-]. cbn. f_equal. by apply IH.
Qed.

Lemma partition_complete (sub a b : string) :
  exists found, Py.partition sub (a +:+ sub +:+ b) = Some found.
Proof.
  induction a as [|c a [[a' b'] IH]].
  - cbn [String.append]. pose proof (prefix_self sub b) as Hp.
    destruct (sub +:+ b); cbn [Py.partition]; rewrite Hp; by eexists.
  - cbn [String.append Py.partition].
    destruct (String.prefix sub _); [by eexists|].
    rewrite IH. by eexists.
Qed.

(** [sub in s] holds exactly when [s] is some text, then [sub], then some
    text. *)
Lemma contains_spec (sub s : string) :
  Py.contains sub s = true <-> exists before after, s = before +:+ sub +:+ after.
Proof.
  unfold Py.contains. split.
  - destruct (Py.partition sub s) as [[a b]|] eqn:Hp; [|done].
    intros _. exists a, b. by apply partition_sound.
  - intros (a & b & ->). by destruct (partition_complete sub a b) as [found ->].
Qed.

End ContainsFacts.

(** ** More on working memory *)

Section WorkingMore.
Import Working.

Lemma store_has_room wm m :
  has_room wm -> _messages (store wm m) = _messages wm ++ [m].
Proof.
  unfold has_room, store. destruct (max_size wm) as [n|]; [|done].
  intros [->|Hlt]; [done|]. cbn [_messages].
  rewrite length_app. cbn [length].
  destruct (Z.ltb_spec n (Z.of_nat (length (_messages wm) + 1))); [lia|].
  by rewrite andb_false_r.
Qed.

Lemma forget_update md m : forget (_update_metadata md m) m = md.
Proof.
  destruct md as [t s u a], m as [[] ?];
    unfold forget, _update_metadata, isinstance; simpl; f_equal; lia.
Qed.

(** X1.  [remove_last(1)] undoes a [store] that did not evict: the list and the
    counters are back to what they were. *)
Theorem store_remove_last wm m :
  has_room wm -> remove_last (store wm m) 1 = wm.
Proof.
  intros Hroom. pose proof (store_has_room wm m Hroom) as Hm.
  unfold remove_last. rewrite Hm, length_app. cbn [length].
  destruct (Z.leb_spec 1 (Z.of_nat (length (_messages wm) + 1))); [|lia].
  cbn [Z.ltb Z.compare andb].
  rewrite slice_from_last, slice_to_last by lia.
  rewrite length_app. cbn [length].
  replace (length (_messages wm) + 1 - Z.to_nat 1)%nat with (length (_messages wm)) by lia.
  rewrite drop_app_length, take_app_length. cbn [fold_left store _metadata max_size].
  rewrite forget_update. by destruct wm.
Qed.

Lemma store_remove_last_witness :
  remove_last (store (run (init (Some 3)) [OpStoreUser "a"; OpStoreAi "b"])
                     (mkMessage HumanMessage "c")) 1
  = run (init (Some 3)) [OpStoreUser "a"; OpStoreAi "b"].
Proof.
  apply (store_remove_last (run (init (Some 3)) [OpStoreUser "a"; OpStoreAi "b"])).
  right. simpl. lia.
Defined.

(** X2.  [remove_last(n)] does nothing unless [1 <= n <= len]; otherwise it cuts
    exactly the last [n] messages, keeps the capacity, and keeps counters
    that were right, right. *)
Theorem remove_last_range wm (n : Z) :
  (~ (1 <= n <= Z.of_nat (length (_messages wm))) -> remove_last wm n = wm)
  /\ (1 <= n <= Z.of_nat (length (_messages wm)) ->
      _messages (remove_last wm n) = take (length (_messages wm) - Z.to_nat n) (_messages wm)
      /\ length (_messages (remove_last wm n)) = (length (_messages wm) - Z.to_nat n)%nat
      /\ max_size (remove_last wm n) = max_size wm
      /\ (counters_consistent wm -> counters_consistent (remove_last wm n))).
Proof.
  split.
  - intros Hout. unfold remove_last.
    destruct (Z.ltb_spec 0 n), (Z.leb_spec n (Z.of_nat (length (_messages wm))));
      simpl; try done. lia.
  - intros Hin.
    assert (_messages (remove_last wm n)
            = take (length (_messages wm) - Z.to_nat n) (_messages wm)) as Hm.
    { unfold remove_last.
      destruct (Z.ltb_spec 0 n); [|lia].
      destruct (Z.leb_spec n (Z.of_nat (length (_messages wm)))); [|lia].
      simpl. apply slice_to_last. lia. }
    split; [done|]. split; [rewrite Hm, length_take; lia|].
    split; [apply apply_max_size with (op := OpRemoveLast n)|].
    apply remove_last_consistent.
Qed.

Lemma remove_last_range_witness :
  _messages (remove_last (run (init None) [OpStoreUser "a"; OpStoreAi "b"; OpStoreUser "c"]) 2)
  = [mkMessage HumanMessage "a"]
  /\ remove_last (run (init None) [OpStoreUser "a"]) 5 = run (init None) [OpStoreUser "a"].
Proof.
  destruct (remove_last_range
              (run (init None) [OpStoreUser "a"; OpStoreAi "b"; OpStoreUser "c"]) 2)
    as [_ Hin].
  destruct (remove_last_range (run (init None) [OpStoreUser "a"]) 5) as [Hout _].
  split.
  - destruct Hin as [H _]; [simpl; lia|]. exact H.
  - apply Hout. simpl. lia.
Defined.

Lemma store_length_bound wm m (C : Z) :
  max_size wm = Some C -> 1 <= C ->
  (length (_messages (store wm m)) <= Z.to_nat C)%nat.
Proof.
  intros HC Hpos. rewrite (store_messages _ _ C) by done.
  rewrite length_drop. lia.
Qed.

Lemma apply_length_bound wm op (C : Z) :
  max_size wm = Some C -> 1 <= C ->
  (length (_messages wm) <= Z.to_nat C)%nat ->
  (length (_messages (apply wm op)) <= Z.to_nat C)%nat.
Proof.
  intros HC Hpos Hlen.
  destruct op; simpl; try (by apply store_length_bound).
  - lia.
  - unfold remove_last. destruct (_ && _) eqn:Hc; [|done].
    apply andb_prop in Hc as [Hn _]. apply Z.ltb_lt in Hn.
    cbn [_messages]. rewrite slice_to_last by done. rewrite length_take. lia.
Qed.

(** X3.  Whatever is done to a memory of capacity [C >= 1] that starts within its
    capacity (stores of any kind, clears, removals, in any order), it never
    holds more than [C] messages. *)
Theorem capacity_invariant (C : Z) (wm : WorkingMemory) (ops : list Op) :
  1 <= C -> max_size wm = Some C ->
  (length (_messages wm) <= Z.to_nat C)%nat ->
  (length (_messages (run wm ops)) <= Z.to_nat C)%nat
  /\ max_size (run wm ops) = Some C.
Proof.
  intros HC. revert wm. induction ops as [|op ops IH]; intros wm Hcap Hlen; [done|].
  simpl. apply IH.
  - by rewrite apply_max_size.
  - by apply apply_length_bound.
Qed.

Lemma capacity_invariant_witness :
  (length (_messages (run (init (Some 2%Z))
     [OpStoreUser "a"; OpStoreAi "b"; OpRemoveLast 1%Z; OpStoreSystem "s";
      OpStoreSemantic "k"; OpClear; OpStoreUser "c"])) <= 2)%nat.
Proof.
  apply (capacity_invariant 2 (init (Some 2))
           [OpStoreUser "a"; OpStoreAi "b"; OpRemoveLast 1; OpStoreSystem "s";
            OpStoreSemantic "k"; OpClear; OpStoreUser "c"]); [lia|done|simpl; lia].
Defined.

(** X4.  The counters of a memory filled by [store] alone count every message
    stored since it was created, evicted or not: after [N] stores
    [total_messages] is [N] whatever the capacity. *)
Theorem counters_count_stores (cap : option Z) (ms : list BaseMessage) :
  let wm := fold_left store ms (init cap) in
  total_messages (_metadata wm) = Z.of_nat (length ms)
  /\ system_prompts (_metadata wm) = Z.of_nat (length (of_type SystemMessage ms))
  /\ user_messages (_metadata wm) = Z.of_nat (length (of_type HumanMessage ms))
  /\ ai_messages (_metadata wm) = Z.of_nat (length (of_type AIMessage ms)).
Proof. intros wm. subst wm. by rewrite fold_store_metadata. Qed.

(** X5.  [retrieve] filters first and limits second: with a type and a positive
    limit [n] it returns the last [n] messages of that type (all of them when
    there are fewer), not the messages of that type among the last [n]. *)
Theorem retrieve_filter_then_limit wm (n : Z) (t : option string) :
  0 < n ->
  let all := retrieve wm {| kw_limit := None; kw_type := t |} in
  retrieve wm {| kw_limit := Some n; kw_type := t |}
  = drop (length all - Z.to_nat n) all
  /\ (length (retrieve wm {| kw_limit := Some n; kw_type := t |}) <= Z.to_nat n)%nat.
Proof.
  intros Hn all. rewrite retrieve_limit_positive by done. fold all.
  split; [done|]. rewrite length_drop. lia.
Qed.

Lemma retrieve_filter_then_limit_witness :
  retrieve (run (init None) [OpStoreUser "a"; OpStoreUser "b"; OpStoreAi "c"; OpStoreAi "d"])
           {| kw_limit := Some 1; kw_type := Some "user" |}
  = [mkMessage HumanMessage "b"].
Proof.
  destruct (retrieve_filter_then_limit
              (run (init None) [OpStoreUser "a"; OpStoreUser "b"; OpStoreAi "c"; OpStoreAi "d"])
              1 (Some "user")) as [H _]; [lia|]. exact H.
Defined.

(** X6.  A type other than [system], [user] or [ai] (in any letter case) is no
    filter at all: [retrieve] then returns the messages of every type. *)
Theorem retrieve_unknown_type wm (t : string) :
  Py.lower t <> "system" -> Py.lower t <> "user" -> Py.lower t <> "ai" ->
  retrieve wm {| kw_limit := None; kw_type := Some t |} = _messages wm.
Proof.
  intros Hs Hu Ha. unfold retrieve. cbn [kw_type kw_limit].
  destruct (Py.truthy_str t); [|done].
  destruct (String.eqb_spec (Py.lower t) "system"); [done|].
  destruct (String.eqb_spec (Py.lower t) "user"); [done|].
  by destruct (String.eqb_spec (Py.lower t) "ai").
Qed.

Lemma retrieve_unknown_type_witness :
  retrieve (run (init None) [OpStoreSystem "s"; OpStoreUser "a"; OpStoreAi "b"])
           {| kw_limit := None; kw_type := Some "assistant" |}
  = [mkMessage SystemMessage "s"; mkMessage HumanMessage "a"; mkMessage AIMessage "b"].
Proof.
  apply (retrieve_unknown_type
           (run (init None) [OpStoreSystem "s"; OpStoreUser "a"; OpStoreAi "b"])
           "assistant"); discriminate.
Defined.

Lemma find_rev_last {A} (p : A -> bool) (l : list A) :
  List.find p (rev l) = last (List.filter p l).
Proof.
  induction l as [|x l IH] using rev_ind; [done|].
  rewrite rev_unit, List.filter_app. cbn [List.find List.filter].
  destruct (p x); [by rewrite last_snoc|]. by rewrite app_nil_r.
Qed.

(** X7.  [get_last_user_message] is the last of the stored user messages and
    [get_last_ai_message] the last of the stored assistant messages; each is
    [None] exactly when no message of that class is stored. *)
Theorem get_last_message wm :
  get_last_user_message wm = last (of_type HumanMessage (_messages wm))
  /\ get_last_ai_message wm = last (of_type AIMessage (_messages wm))
  /\ (get_last_user_message wm = None <-> of_type HumanMessage (_messages wm) = [])
  /\ (get_last_ai_message wm = None <-> of_type AIMessage (_messages wm) = []).
Proof.
  unfold get_last_user_message, get_last_ai_message, of_type.
  rewrite !find_rev_last. repeat split; try apply last_None; done.
Qed.

Lemma contains_empty s : Py.contains "" s = true.
Proof. unfold Py.contains. by destruct s. Qed.

Lemma lower_char_idemp c : Py.lower_char (Py.lower_char c) = Py.lower_char c.
Proof. by destruct c as [[] [] [] [] [] [] [] []]. Qed.

Lemma lower_idemp s : Py.lower (Py.lower s) = Py.lower s.
Proof. induction s as [|c s IH]; [done|]. simpl. by rewrite lower_char_idemp, IH. Qed.

Lemma filter_sublist {A} (p : A -> bool) (l : list A) : sublist (List.filter p l) l.
Proof.
  induction l as [|x l IH]; simpl; [constructor|].
  destruct (p x); by constructor.
Qed.

(** X8.  [search] returns, in stored order, exactly the messages whose
    lower-cased content has the lower-cased keyword as a substring; it takes
    the keyword without regard to letter case, and with the empty keyword it
    returns every message. *)
Theorem search_keyword wm (keyword : string) :
  (forall m,
      m ∈ search wm keyword
      <-> m ∈ _messages wm
          /\ exists before after,
               Py.lower (content m) = before +:+ Py.lower keyword +:+ after)
  /\ sublist (search wm keyword) (_messages wm)
  /\ search wm (Py.lower keyword) = search wm keyword
  /\ search wm "" = _messages wm.
Proof.
  unfold search. rewrite lower_idemp. split; [|split; [|split; [done|]]].
  - intros m. by rewrite !list_elem_of_In, filter_In, contains_spec.
  - apply filter_sublist.
  - cbn [Py.lower]. induction (_messages wm) as [|m l IH]; [done|].
    cbn [List.filter]. by rewrite contains_empty, IH.
Qed.

End WorkingMore.

(** ** Text facts for the rule file *)

Section TextFacts.

Local Arguments String.append !_ _ / : simpl nomatch.

Lemma rev_snoc (y : string) (c : ascii) :
  String.rev (y +:+ String c "") = String c (String.rev y).
Proof. unfold String.rev. apply rev_app_snoc. Qed.

Lemma rev_involutive (s : string) : String.rev (String.rev s) = s.
Proof.
  induction s as [|a s IH]; [done|].
  by rewrite rev_cons, rev_snoc, IH.
Qed.

Lemma rstrip_fixed (t : string) (c : ascii) :
  Py.is_space c = false -> Py.rstrip (t +:+ String c "") = t +:+ String c "".
Proof.
  intros Hc. unfold Py.rstrip.
  by rewrite rev_snoc, lstrip_keeps, rev_cons, rev_involutive.
Qed.

Lemma strip_fixed (c : ascii) (r : string) :
  Py.is_space c = false -> Py.ends_nonspace (String c r) ->
  Py.strip (String c r) = String c r.
Proof.
  intros Hc (t & c' & Ht & Hc'). unfold Py.strip.
  rewrite lstrip_keeps by done. rewrite Ht. by apply rstrip_fixed.
Qed.

Lemma stripped_ends (s : string) :
  Py.strip s = s -> s <> EmptyString -> Py.ends_nonspace s.
Proof.
  intros Hs Hne. rewrite <- Hs. unfold Py.strip, Py.rstrip.
  destruct (Py.lstrip (String.rev (Py.lstrip s))) as [|c r] eqn:Hl.
  - exfalso. apply Hne. rewrite <- Hs. unfold Py.strip, Py.rstrip. by rewrite Hl.
  - rewrite rev_cons. exists (String.rev r), c. split; [done|].
    by apply lstrip_head in Hl.
Qed.

Lemma stripped_head (s : string) :
  Py.strip s = s -> s <> EmptyString ->
  exists c r, s = String c r /\ Py.is_space c = false.
Proof.
  intros Hs Hne. destruct s as [|c r]; [done|].
  exists c, r. split; [done|]. by apply (strip_head _ _ _ Hs).
Qed.

Lemma ends_nonspace_app (a b : string) :
  Py.ends_nonspace b -> Py.ends_nonspace (a +:+ b).
Proof.
  intros (t & c & -> & Hc). exists (a +:+ t), c. by rewrite append_assoc.
Qed.

Lemma drop_while_app_all (p : ascii -> bool) (a b : string) :
  Py.drop_while p a = EmptyString ->
  Py.drop_while p (a +:+ b) = Py.drop_while p b.
Proof.
  induction a as [|x a IH]; [done|]. cbn. by destruct (p x).
Qed.

Lemma has_char_app (c : ascii) (a b : string) :
  Py.has_char c (a +:+ b) = Py.has_char c a || Py.has_char c b.
Proof.
  induction a as [|x a IH]; [done|]. cbn. rewrite IH. by destruct (Ascii.eqb x c).
Qed.

Lemma split_no_sep (sep : ascii) (s : string) :
  Py.has_char sep s = false -> Py.split sep s = [s].
Proof.
  induction s as [|x s IH]; [done|]. cbn.
  destruct (Ascii.eqb x sep); [done|]. cbn. intros Hs. by rewrite IH.
Qed.

Lemma split_app_sep (sep : ascii) (a b : string) :
  Py.has_char sep a = false ->
  Py.split sep (a +:+ String sep b) = a :: Py.split sep b.
Proof.
  induction a as [|x a IH]; cbn.
  - by rewrite Ascii.eqb_refl.
  - destruct (Ascii.eqb x sep); [done|]. cbn. intros Ha. by rewrite IH.
Qed.

Lemma split_join (lines : list string) :
  lines <> [] ->
  Forall (fun l => Py.has_char Py.LF l = false) lines ->
  Py.split Py.LF (Py.join Py.nl lines) = lines.
Proof.
  intros Hne Hall. induction Hall as [|l lines Hl Hall IH]; [done|].
  destruct lines as [|l' lines]; [by apply split_no_sep|].
  change (Py.join Py.nl (l :: l' :: lines))
    with (l +:+ String Py.LF (Py.join Py.nl (l' :: lines))).
  rewrite split_app_sep by done. by rewrite IH.
Qed.

Lemma join_ends (lines : list string) :
  lines <> [] -> Forall Py.ends_nonspace lines ->
  Py.ends_nonspace (Py.join Py.nl lines).
Proof.
  intros Hne Hall. induction Hall as [|l lines Hl Hall IH]; [done|].
  destruct lines as [|l' lines]; [done|].
  change (Py.join Py.nl (l :: l' :: lines))
    with (l +:+ (Py.nl +:+ Py.join Py.nl (l' :: lines))).
  apply ends_nonspace_app, ends_nonspace_app. by apply IH.
Qed.

Lemma prefix_app (p a b : string) :
  String.prefix p a = true -> String.prefix p (a +:+ b) = true.
Proof.
  revert a. induction p as [|x p IH]; intros [|y a]; cbn; try done.
  - by destruct b.
  - destruct (ascii_dec x y); [apply IH|done].
Qed.

Lemma prefix_app_long (p a b : string) :
  (String.length p <= String.length a)%nat ->
  String.prefix p (a +:+ b) = String.prefix p a.
Proof.
  revert a. induction p as [|x p IH]; intros [|y a]; cbn; try done.
  - by destruct b.
  - lia.
  - intros Hlen. destruct (ascii_dec x y); [apply IH; lia|done].
Qed.

Lemma length_append (a b : string) :
  String.length (a +:+ b) = (String.length a + String.length b)%nat.
Proof. induction a as [|x a IH]; [done|]. cbn. by rewrite IH. Qed.

Lemma partition_app_none (p a b : string) :
  Py.partition p (a +:+ b) = None -> Py.partition p a = None.
Proof.
  induction a as [|x a IH].
  - destruct p as [|y p]; [by destruct b|done].
  - cbn [String.append Py.partition].
    destruct (String.prefix p (String x a)) eqn:Hp.
    + change (String x (a +:+ b)) with (String x a +:+ b).
      by rewrite (prefix_app _ _ _ Hp).
    + destruct (String.prefix p (String x (a +:+ b))); [done|].
      destruct (Py.partition p (a +:+ b)) as [[? ?]|] eqn:Hab; [done|].
      intros _. by rewrite IH.
Qed.

(** The separator written between instruction and rationale is the first
    one of the line. *)
Lemma partition_separator (i r : string) :
  Py.contains " - " (i +:+ " -") = false ->
  Py.partition " - " (i +:+ " - " +:+ r) = Some (i, r).
Proof.
  unfold Py.contains. remember (" - " +:+ r) as tail eqn:Ht.
  induction i as [|c i IH]; [intros _; subst tail; by destruct r|].
  cbn [String.append Py.partition].
  destruct (String.prefix " - " (String c (i +:+ " -"))) eqn:Hp; [done|].
  destruct (Py.partition " - " (i +:+ " -")) as [[? ?]|] eqn:Hrec; [done|].
  intros _.
  assert (String.prefix " - " (String c (i +:+ tail)) = false) as ->.
  { replace (i +:+ tail) with ((i +:+ " -") +:+ (" " +:+ r))
      by (rewrite append_assoc; by subst tail).
    change (String c ((i +:+ " -") +:+ " " +:+ r))
      with (String c (i +:+ " -") +:+ (" " +:+ r)).
    rewrite prefix_app_long; [exact Hp|].
    cbn [String.length]. rewrite length_append. cbn. lia. }
  by rewrite IH.
Qed.

Lemma uint_digits (d : Decimal.uint) :
  Py.drop_while Py.is_decimal (NilEmpty.string_of_uint d) = EmptyString
  /\ Py.has_char Py.LF (NilEmpty.string_of_uint d) = false.
Proof.
  induction d as [|d IH|d IH|d IH|d IH|d IH|d IH|d IH|d IH|d IH|d IH]; [done|..];
    destruct IH as [IH1 IH2]; by cbn.
Qed.

(** [str(n)] of a non-negative int: one digit at least, digits only. *)
Lemma str_of_int_digits (n : Z) :
  0 <= n ->
  (exists d ds, Py.str_of_int n = String d ds /\ Py.is_decimal d = true)
  /\ Py.drop_while Py.is_decimal (Py.str_of_int n) = EmptyString
  /\ Py.has_char Py.LF (Py.str_of_int n) = false.
Proof.
  intros Hn. unfold Py.str_of_int.
  assert (exists u, Z.to_int n = Decimal.Pos u) as [u ->].
  { destruct n; [by eexists..|exfalso; lia]. }
  cbn [NilZero.string_of_int]. unfold NilZero.string_of_uint.
  pose proof (uint_digits u) as Hu.
  destruct u; (split; [by eexists _, _|]); first [exact Hu | by vm_compute].
Qed.

Lemma decimal_not_space (c : ascii) : Py.is_decimal c = true -> Py.is_space c = false.
Proof. by destruct c as [[] [] [] [] [] [] [] []]. Qed.

End TextFacts.

(** ** The rule file *)

Section RuleFile.
Import Procedural.

Local Arguments String.append !_ _ / : simpl nomatch.

Lemma rule_line_shape r :
  rule_line r = Py.str_of_int (index r) +:+ ". " +:+ body r.
Proof.
  unfold rule_line, body. destruct (Py.truthy_str (rationale r)); [|done].
  by rewrite !append_assoc.
Qed.

Lemma body_head r :
  storable r -> exists c rest, body r = String c rest /\ Py.is_space c = false.
Proof.
  intros (Hne & Hi & _). destruct (stripped_head _ Hi Hne) as (c & rest & Hc & Hsp).
  unfold body. rewrite Hc. destruct (Py.truthy_str (rationale r)); by eexists _, _.
Qed.

Lemma body_ends r : storable r -> Py.ends_nonspace (body r).
Proof.
  intros (Hne & Hi & Hr & _). unfold body.
  destruct (rationale r) as [|c rat] eqn:Hrat; cbn [Py.truthy_str].
  - by apply stripped_ends.
  - do 2 apply ends_nonspace_app. by apply stripped_ends.
Qed.

Lemma body_one_line r : storable r -> Py.has_char Py.LF (body r) = false.
Proof.
  intros (_ & _ & _ & Hi & Hr & _). unfold body.
  destruct (Py.truthy_str (rationale r)); [|done].
  by rewrite !has_char_app, Hi, Hr.
Qed.

Lemma body_split r :
  storable r -> split_rule (body r) = (instruction r, rationale r).
Proof.
  intros (_ & _ & _ & _ & _ & Hsep & _). unfold split_rule, body.
  destruct (rationale r) as [|c rat] eqn:Hrat; cbn [Py.truthy_str].
  - unfold Py.contains in Hsep.
    destruct (Py.partition " - " (instruction r +:+ " -")) eqn:Hp; [done|].
    by rewrite (partition_app_none _ _ _ Hp).
  - by rewrite partition_separator.
Qed.

Lemma rule_line_strip r :
  storable r -> 0 <= index r ->
  Py.strip (rule_line r) = rule_line r
  /\ Py.truthy_str (rule_line r) = true
  /\ Py.has_char Py.LF (rule_line r) = false
  /\ Py.ends_nonspace (rule_line r)
  /\ exists c rest, rule_line r = String c rest /\ Py.is_space c = false.
Proof.
  intros Hr Hidx. rewrite rule_line_shape.
  destruct (str_of_int_digits _ Hidx) as ((d & ds & Hd & Hdec) & _ & Hlf).
  assert (Py.ends_nonspace (Py.str_of_int (index r) +:+ ". " +:+ body r)) as Hends
    by (do 2 apply ends_nonspace_app; by apply body_ends).
  assert (Py.has_char Py.LF (Py.str_of_int (index r) +:+ ". " +:+ body r) = false) as Hone
    by (by rewrite !has_char_app, Hlf, body_one_line).
  revert Hends Hone. rewrite Hd. cbn [String.append]. intros Hends Hone.
  pose proof (decimal_not_space _ Hdec) as Hsp.
  split; [by apply strip_fixed|]. split; [done|]. split; [done|].
  split; [done|]. by eexists _, _.
Qed.

Lemma rule_line_numbering r :
  storable r -> 0 <= index r -> strip_numbering (rule_line r) = body r.
Proof.
  intros Hr Hidx. rewrite rule_line_shape.
  destruct (str_of_int_digits _ Hidx) as ((d & ds & Hd & Hdec) & Hall & _).
  destruct (body_head r Hr) as (c & rest & Hb & Hc).
  assert (Py.drop_while Py.is_decimal (Py.str_of_int (index r) +:+ ". " +:+ body r)
          = String "." (String " " (body r))) as Hdrop
    by (by rewrite drop_while_app_all).
  revert Hdrop. rewrite Hd. cbn [String.append]. intros Hdrop.
  unfold strip_numbering. rewrite Hdec, Hdrop, Hb. cbn. by rewrite Hc.
Qed.

Lemma parse_rule_line r rest acc :
  storable r -> 0 <= index r ->
  parse_lines (rule_line r :: rest) acc
  = parse_lines rest
      (acc ++ [ {| index := Z.of_nat (length acc) + 1;
                   instruction := instruction r;
                   rationale := rationale r;
                   category := None |} ]).
Proof.
  intros Hr Hidx. cbn [parse_lines].
  destruct (rule_line_strip r Hr Hidx) as (-> & -> & _).
  cbn [negb]. rewrite (rule_line_numbering r Hr Hidx), (body_split r Hr).
  destruct Hr as (_ & -> & -> & _). done.
Qed.

Lemma parse_rule_lines rs acc :
  Forall storable rs ->
  (forall (i : nat) r, rs !! i = Some r -> index r = Z.of_nat (length acc + i) + 1) ->
  parse_lines (map rule_line rs) acc = acc ++ rs.
Proof.
  intros Hall. revert acc. induction Hall as [|r rs Hr Hall IH]; intros acc Hidx.
  - by rewrite app_nil_r.
  - cbn [map]. rewrite parse_rule_line; [|done|rewrite (Hidx 0%nat r eq_refl); lia].
    rewrite IH.
    + rewrite <- app_assoc. cbn. do 2 f_equal.
      destruct Hr as (_ & _ & _ & _ & _ & _ & Hcat & _).
      specialize (Hidx 0%nat r eq_refl). destruct r; cbn in *. subst. f_equal. lia.
    + intros i r' Hi. rewrite (Hidx (S i) r' Hi), length_app. cbn. f_equal. lia.
Qed.

Lemma file_text_stripped rs :
  contiguous rs -> Forall storable rs ->
  Py.strip (file_text rs) = file_text rs
  /\ Py.split Py.LF (file_text rs) = if rs is [] then [""] else map rule_line rs.
Proof.
  intros Hidx Hall. destruct rs as [|r rs]; [done|].
  assert (Forall (fun r => 0 <= index r) (r :: rs)) as Hpos.
  { apply Forall_lookup. intros i x Hi. rewrite (Hidx i x Hi). lia. }
  assert (Forall (fun l => Py.has_char Py.LF l = false) (map rule_line (r :: rs))) as Hlf.
  { apply Forall_fmap, Forall_forall. intros x Hx.
    eapply Forall_forall in Hall, Hpos; [|done..].
    by destruct (rule_line_strip x Hall Hpos) as (_ & _ & ? & _). }
  assert (Forall Py.ends_nonspace (map rule_line (r :: rs))) as Hends.
  { apply Forall_fmap, Forall_forall. intros x Hx.
    eapply Forall_forall in Hall, Hpos; [|done..].
    by destruct (rule_line_strip x Hall Hpos) as (_ & _ & _ & ? & _). }
  split; [|by apply split_join].
  pose proof (join_ends (map rule_line (r :: rs)) ltac:(done) Hends) as Hj.
  apply Forall_cons in Hall as [Hr _]. apply Forall_cons in Hpos as [Hp _].
  destruct (rule_line_strip r Hr Hp) as (_ & _ & _ & _ & c & rest & Hc & Hsp).
  unfold file_text in *. revert Hj. cbn [map].
  destruct (map rule_line rs) as [|l ls]; cbn [Py.join]; rewrite Hc; cbn [String.append];
    intros Hj; by apply strip_fixed.
Qed.

(** What [_save_rules] writes, [_parse_rules] reads back: a rule list that
    is numbered 1, 2, ... and made of [storable] rules is the list parsed from
    its own file text. *)
Lemma universal_newlines_id (s : string) :
  Py.has_char Py.CR s = false -> Py.universal_newlines s = s.
Proof.
  induction s as [|c s IH]; [done|]. cbn [Py.has_char Py.universal_newlines].
  destruct (Ascii.eqb c Py.CR); [done|]. intros Hs. by rewrite IH.
Qed.

Lemma digits_no_char (c : ascii) (s : string) :
  Py.is_decimal c = false -> Py.drop_while Py.is_decimal s = EmptyString ->
  Py.has_char c s = false.
Proof.
  intros Hc. induction s as [|x s IH]; [done|]. cbn.
  destruct (Py.is_decimal x) eqn:Hx; [|done]. intros Hs.
  destruct (Ascii.eqb_spec x c) as [->|_]; [congruence|by apply IH].
Qed.

Lemma rule_line_no_cr r :
  storable r -> 0 <= index r -> Py.has_char Py.CR (rule_line r) = false.
Proof.
  intros (_ & _ & _ & _ & _ & _ & _ & Hi & Hr) Hidx.
  destruct (str_of_int_digits _ Hidx) as (_ & Hall & _).
  rewrite rule_line_shape, !has_char_app.
  rewrite (digits_no_char Py.CR _ eq_refl Hall). cbn [orb Py.has_char].
  unfold body. destruct (Py.truthy_str (rationale r)); [|by rewrite Hi].
  by rewrite !has_char_app, Hi, Hr.
Qed.

Lemma has_char_join (c : ascii) (sep : string) (parts : list string) :
  Py.has_char c sep = false -> Forall (fun part => Py.has_char c part = false) parts ->
  Py.has_char c (Py.join sep parts) = false.
Proof.
  intros Hsep Hall. induction Hall as [|x parts Hx Hall IH]; [done|].
  destruct parts as [|y parts]; [done|].
  change (Py.join sep (x :: y :: parts)) with (x +:+ sep +:+ Py.join sep (y :: parts)).
  by rewrite !has_char_app, Hx, Hsep, IH.
Qed.

Lemma file_text_no_cr rs :
  contiguous rs -> Forall storable rs -> Py.has_char Py.CR (file_text rs) = false.
Proof.
  intros Hidx Hall. apply has_char_join; [done|].
  apply Forall_fmap, Forall_lookup. intros i r Hi.
  apply rule_line_no_cr; [by eapply Forall_lookup in Hall|].
  rewrite (Hidx i r Hi). lia.
Qed.

Lemma parse_file_text rs :
  contiguous rs -> Forall storable rs -> _parse_rules (file_text rs) = rs.
Proof.
  intros Hidx Hall. unfold _parse_rules.
  destruct (file_text_stripped rs Hidx Hall) as [-> ->].
  destruct rs as [|r rs]; [done|].
  rewrite parse_rule_lines; [done|done|].
  intros i x Hi. rewrite (Hidx i x Hi). cbn. lia.
Qed.

Lemma strip_ends (s : string) :
  Py.strip s <> EmptyString -> Py.ends_nonspace (Py.strip s).
Proof.
  unfold Py.strip, Py.rstrip.
  destruct (Py.lstrip (String.rev (Py.lstrip s))) as [|c r] eqn:Hl; [done|].
  intros _. rewrite rev_cons. exists (String.rev r), c. split; [done|].
  by apply lstrip_head in Hl.
Qed.

Lemma strip_idemp (s : string) : Py.strip (Py.strip s) = Py.strip s.
Proof.
  destruct (Py.strip s) as [|c r] eqn:Hs; [done|].
  apply strip_fixed; [by apply (strip_head _ _ _ Hs)|].
  rewrite <- Hs. apply strip_ends. by rewrite Hs.
Qed.

Lemma parse_lines_normal lines acc :
  Forall (fun r => category r = None
                   /\ Py.strip (instruction r) = instruction r
                   /\ Py.strip (rationale r) = rationale r) acc ->
  Forall (fun r => category r = None
                   /\ Py.strip (instruction r) = instruction r
                   /\ Py.strip (rationale r) = rationale r) (parse_lines lines acc).
Proof.
  revert acc. induction lines as [|line rest IH]; intros acc Hacc; [done|].
  cbn [parse_lines]. destruct (negb _); [by apply IH|].
  destruct (split_rule _) as [i r]. apply IH.
  apply Forall_app. split; [done|]. constructor; [|done].
  cbn [category instruction rationale]. by rewrite !strip_idemp.
Qed.

(** Reading the file that [_save_rules] wrote gives the rules back. *)
Lemma read_file_text rs :
  contiguous rs -> Forall storable rs ->
  _parse_rules (Py.universal_newlines (file_text rs)) = rs.
Proof.
  intros Hidx Hall.
  by rewrite (universal_newlines_id _ (file_text_no_cr _ Hidx Hall)), parse_file_text.
Qed.

(** X10.  Every rule read from a text has stripped texts and no category:
    [_parse_rules] has no way to read a category back. *)
Theorem parsed_rules_normal (text : string) :
  Forall (fun r => category r = None
                   /\ Py.strip (instruction r) = instruction r
                   /\ Py.strip (rationale r) = rationale r) (_parse_rules text).
Proof. by apply parse_lines_normal. Qed.

(** X11.  The rule file round trip.  When the rules in memory are numbered
    1, 2, ... and each is [storable] (in particular holds neither a line feed
    nor a carriage return), [_save_rules] writes a file from which
    [initialize] on a new [ProceduralMemory], reading it in text mode, loads
    exactly the same rules. *)
Theorem save_then_initialize (now : Z) (pm : ProceduralMemory) :
  writable (file_path pm) = true ->
  contiguous (rules pm) ->
  Forall storable (rules pm) ->
  (_save_rules pm).2 = Ok tt
  /\ text (file_path (_save_rules pm).1) = Some (file_text (rules pm))
  /\ initialize now (init (file_path (_save_rules pm).1))
     = ({| rules := rules pm;
           file_path := file_path (_save_rules pm).1;
           last_updated := Some now |}, Ok tt).
Proof.
  intros Hw Hidx Hall. rewrite save_rules_writable by done.
  cbn [fst snd file_path text]. split; [done|]. split; [done|].
  unfold initialize. cbn [init text file_path]. cbv zeta.
  fold (file_text (rules pm)). by rewrite (read_file_text _ Hidx Hall).
Qed.

(** A carriage return does not survive the file: a rule whose instruction
    holds one is written on one line and read back as two rules. *)
Example carriage_return_splits_rule :
  let pm := (add_rule (init (mkFile None true 0))
               ("a" +:+ String Py.CR "b") "c" None).1 in
  text (file_path pm) = Some ("1. a" +:+ String Py.CR "b - c")
  /\ rules (initialize 1 (init (file_path pm))).1
     = [ {| index := 1; instruction := "a"; rationale := EmptyString; category := None |};
         {| index := 2; instruction := "b"; rationale := "c"; category := None |} ].
Proof. by vm_compute. Qed.

Lemma default_rules_storable : Forall storable _get_default_rules.
Proof. repeat constructor; by vm_compute. Qed.

Lemma default_rules_contiguous : contiguous _get_default_rules.
Proof.
  intros i r Hi. do 10 (destruct i as [|i]; [by injection Hi as <-|]). done.
Qed.

Lemma save_then_initialize_witness :
  initialize 9 (init (file_path (_save_rules seeded).1))
  = ({| rules := _get_default_rules;
        file_path := file_path (_save_rules seeded).1;
        last_updated := Some 9 |}, Ok tt).
Proof.
  destruct (save_then_initialize 9 seeded eq_refl default_rules_contiguous
              default_rules_storable) as (_ & _ & H).
  exact H.
Defined.

(** X12.  The first [initialize], with no rule file yet: the ten default rules,
    numbered 1 to 10, replace whatever the memory held and are written to the
    file, from which a later [initialize] loads the same ten rules. *)
Theorem initialize_seeds (now later : Z) (pm : ProceduralMemory) :
  text (file_path pm) = None ->
  writable (file_path pm) = true ->
  (initialize now pm).2 = Ok tt
  /\ rules (initialize now pm).1 = _get_default_rules
  /\ length (rules (initialize now pm).1) = 10%nat
  /\ contiguous (rules (initialize now pm).1)
  /\ text (file_path (initialize now pm).1) = Some (file_text _get_default_rules)
  /\ last_updated (initialize now pm).1 = Some now
  /\ rules (initialize later (initialize now pm).1).1 = _get_default_rules.
Proof.
  intros Hfile Hw.
  assert (initialize now pm
          = ({| rules := _get_default_rules;
                file_path := {| text := Some (file_text _get_default_rules);
                                writable := true;
                                writes := S (writes (file_path pm)) |};
                last_updated := Some now |}, Ok tt)) as ->.
  { unfold initialize. rewrite Hfile. by rewrite save_rules_writable. }
  cbn [fst snd rules file_path text last_updated].
  split; [done|]. split; [done|]. split; [done|].
  split; [apply default_rules_contiguous|]. split; [done|]. split; [done|].
  unfold initialize. cbn [file_path text set_rules set_last_updated rules fst].
  apply (read_file_text _ default_rules_contiguous default_rules_storable).
Qed.

Lemma initialize_seeds_witness :
  rules (initialize 1 (init {| text := None; writable := true; writes := 0 |})).1
  = _get_default_rules
  /\ rules (initialize 2
       (initialize 1 (init {| text := None; writable := true; writes := 0 |})).1).1
     = _get_default_rules.
Proof.
  destruct (initialize_seeds 1 2 (init {| text := None; writable := true; writes := 0 |})
              eq_refl eq_refl) as (_ & H1 & _ & _ & _ & _ & H2).
  by split.
Defined.

(** X13.  After [clear] the file exists and is empty, so the next [initialize]
    loads no rule at all: the default rules are not seeded again. *)
Theorem clear_then_initialize (now : Z) (pm : ProceduralMemory) :
  writable (file_path pm) = true ->
  (clear pm).2 = Ok tt
  /\ rules (clear pm).1 = []
  /\ text (file_path (clear pm).1) = Some EmptyString
  /\ (initialize now (clear pm).1).2 = Ok tt
  /\ rules (initialize now (clear pm).1).1 = [].
Proof.
  intros Hw. unfold clear. rewrite save_rules_writable by done. by cbn.
Qed.

Lemma clear_then_initialize_witness :
  rules (initialize 3 (clear seeded).1).1 = [].
Proof.
  destruct (clear_then_initialize 3 seeded eq_refl) as (_ & _ & _ & _ & H). exact H.
Defined.

Lemma reindex_unnumbered rs : map unnumbered (reindex rs) = map unnumbered rs.
Proof.
  unfold reindex. generalize 1. induction rs as [|r rs IH]; intros start; [done|].
  cbn. by rewrite IH.
Qed.

Lemma reindex_contiguous_id rs : contiguous rs -> reindex rs = rs.
Proof.
  intros Hidx. apply list_eq. intros i. unfold reindex.
  rewrite list_lookup_fmap, enumerate_lookup.
  destruct (rs !! i) as [r|] eqn:Hi; [|done]. cbn.
  specialize (Hidx i r Hi). destruct r as [idx ins rat cat]. cbn in *.
  do 2 f_equal. lia.
Qed.

(** X14.  [remove_rule] with an index that names no rule changes nothing and
    writes nothing.  With a valid index it drops that one rule: the texts and
    categories of the others are kept, in order, and only the numbers change. *)
Theorem remove_rule_effect (pm : ProceduralMemory) (index : Z) :
  (~ (1 <= index <= Z.of_nat (length (rules pm))) -> remove_rule pm index = (pm, Ok tt))
  /\ (1 <= index <= Z.of_nat (length (rules pm)) ->
      map unnumbered (rules (remove_rule pm index).1)
      = pop_at (Z.to_nat (index - 1)) (map unnumbered (rules pm))).
Proof.
  split.
  - intros Hout. unfold remove_rule.
    destruct (Z.leb_spec 0 (index - 1)), (Z.ltb_spec (index - 1) (Z.of_nat (length (rules pm))));
      cbn; try done. lia.
  - intros Hin. rewrite remove_rule_rules by done.
    rewrite reindex_unnumbered. unfold pop_at.
    by rewrite map_app, <- !fmap_take, <- !fmap_drop.
Qed.

Lemma remove_rule_effect_witness :
  remove_rule seeded 11 = (seeded, Ok tt)
  /\ length (rules (remove_rule seeded 4).1) = 9%nat.
Proof.
  destruct (remove_rule_effect seeded 11) as [Hout _].
  destruct (remove_rule_effect seeded 4) as [_ Hin].
  split; [apply Hout; vm_compute; intros [_ H]; by apply H|].
  apply (f_equal length) in Hin; [|vm_compute; split; discriminate].
  rewrite length_map in Hin. rewrite Hin. reflexivity.
Defined.

(** X15.  [remove_rule] undoes [add_rule]: on rules numbered 1, 2, ..., adding a
    rule and removing the rule with the new last number gives back the same
    rule list. *)
Theorem add_then_remove_rule (pm : ProceduralMemory) (instruction rationale : string)
    (category : option string) :
  contiguous (rules pm) ->
  rules (remove_rule (add_rule pm instruction rationale category).1
           (Z.of_nat (length (rules pm)) + 1)).1
  = rules pm.
Proof.
  intros Hidx.
  assert (rules (add_rule pm instruction rationale category).1
          = rules pm ++ [ {| index := Z.of_nat (length (rules pm)) + 1;
                             Procedural.instruction := instruction;
                             Procedural.rationale := rationale;
                             Procedural.category := category |} ]) as Hadd
    by (unfold add_rule; by rewrite save_rules_rules).
  rewrite remove_rule_rules; rewrite Hadd; [|rewrite length_app; cbn; lia].
  replace (Z.to_nat (Z.of_nat (length (rules pm)) + 1 - 1)) with (length (rules pm)) by lia.
  unfold pop_at. rewrite take_app_length.
  rewrite drop_app_ge by lia.
  replace (S (length (rules pm)) - length (rules pm))%nat with 1%nat by lia.
  cbn [drop]. rewrite app_nil_r. by apply reindex_contiguous_id.
Qed.

Lemma add_then_remove_rule_witness :
  rules (remove_rule (add_rule seeded "Greet the user" "Sets the tone" None).1 11).1
  = _get_default_rules.
Proof.
  apply (add_then_remove_rule seeded "Greet the user" "Sets the tone" None).
  apply default_rules_contiguous.
Defined.

(** X16.  [update] replaces the rules in memory before it writes them: if the
    write fails, [update] raises a [ProceduralMemoryError], the memory holds
    the new rules, and the file and [last_updated] are as before. *)
Theorem update_write_failure (llm : Llm.ChatModel) (now : Z) (pm : ProceduralMemory)
    (what_worked what_to_avoid : list string) (reply : string) :
  llm (Llm.InputStr (_create_update_prompt pm what_worked what_to_avoid)) = Ok reply ->
  _parse_rules (Py.strip reply) <> [] ->
  writable (file_path pm) = false ->
  (exists msg, (update llm now pm what_worked what_to_avoid).2
               = Err (ProceduralMemoryError msg))
  /\ rules (update llm now pm what_worked what_to_avoid).1
     = take 10 (_parse_rules (Py.strip reply))
  /\ file_path (update llm now pm what_worked what_to_avoid).1 = file_path pm
  /\ last_updated (update llm now pm what_worked what_to_avoid).1 = last_updated pm.
Proof.
  intros Hreply Hparse Hw. unfold update. rewrite Hreply.
  destruct (_parse_rules (Py.strip reply)) as [|r rs]; [done|].
  cbn [Py.truthy_list]. unfold _save_rules, set_rules. cbn. rewrite Hw. cbn.
  split; [by eexists|done].
Qed.

Lemma update_write_failure_witness :
  map Procedural.instruction
    (rules (update (fun _ => Ok "1. Be brief - Saves time") 5 read_only [] []).1)
  = ["Be brief"]
  /\ text (file_path (update (fun _ => Ok "1. Be brief - Saves time") 5 read_only [] []).1)
     = Some (file_text _get_default_rules).
Proof.
  destruct (update_write_failure (fun _ => Ok "1. Be brief - Saves time") 5 read_only
              [] [] "1. Be brief - Saves time" eq_refl) as (_ & Hr & Hf & _).
  - by vm_compute.
  - reflexivity.
  - split; [by rewrite Hr|by rewrite Hf].
Defined.

End RuleFile.

(** ** More on episodic and semantic memory *)

Section EpisodicMore.
Import Episodic.

(** X17.  [store] is all or nothing: when it returns it has added exactly one
    object after the ones already stored, and when it raises, whatever went
    wrong (the model call, a reply that is not a JSON object, a field of the
    wrong type, the store), the collection is as before and the exception is
    an [EpisodicMemoryError] that starts with [Failed to store episodic
    memory]. *)
Theorem store_all_or_nothing (reflection_chain : ReflectionChain) (now : string)
    (collection : Store.Collection) (messages : list Working.BaseMessage) :
  match (store reflection_chain now collection messages).2 with
  | Ok _ =>
      exists props,
        (store reflection_chain now collection messages).1 = inserted collection props
  | Err e =>
      (store reflection_chain now collection messages).1 = collection
      /\ exists detail,
           e = EpisodicMemoryError ("Failed to store episodic memory: " +:+ detail)
  end.
Proof.
  unfold store.
  destruct (reflection_chain _) as [[reflection|v]|e]; cbn;
    [|split; [done|by eexists]..].
  destruct (make_entry _ _ _ _ _ _) as [entry|]; cbn; [|split; [done|by eexists]].
  unfold Store.insert. destruct (Store.reachable collection); cbn.
  - by eexists.
  - split; [done|by eexists].
Qed.

Lemma not_system_idemp ms : Working.not_system (Working.not_system ms) = Working.not_system ms.
Proof.
  unfold Working.not_system. induction ms as [|m ms IH]; [done|]. cbn.
  destruct (negb (Working.isinstance m Working.SystemMessage)) eqn:Hm; [|done].
  cbn. by rewrite Hm, IH.
Qed.

(** X18.  The transcript text does not depend on the system messages: formatting
    the whole working memory or only its non-system messages (as
    [get_messages(exclude_system=True)] returns them) gives the same text,
    and a transcript of system messages alone is the empty text. *)
Theorem format_conversation_system (wm : Working.WorkingMemory) :
  _format_conversation (Working.get_messages wm true)
  = _format_conversation (Working._messages wm)
  /\ (Working.not_system (Working._messages wm) = [] ->
      _format_conversation (Working._messages wm) = EmptyString).
Proof.
  unfold _format_conversation, Working.get_messages.
  rewrite not_system_idemp. split; [done|]. by intros ->.
Qed.

Lemma format_conversation_system_witness :
  _format_conversation
    (Working._messages (Working.run (Working.init None)
       [Working.OpStoreSystem "rules"; Working.OpStoreSystem "more rules"]))
  = EmptyString.
Proof.
  destruct (format_conversation_system (Working.run (Working.init None)
       [Working.OpStoreSystem "rules"; Working.OpStoreSystem "more rules"])) as [_ H].
  by apply H.
Defined.

End EpisodicMore.

Section SemanticMore.
Import Semantic.

Lemma to_chunks_perm objects1 objects2 chunks1 :
  Permutation objects1 objects2 ->
  to_chunks objects1 = Some chunks1 ->
  exists chunks2, to_chunks objects2 = Some chunks2 /\ Permutation chunks1 chunks2.
Proof.
  intros Hp. revert chunks1.
  induction Hp as [|o l1 l2 Hp IH|o1 o2 l|l1 l2 l3 Hp1 IH1 Hp2 IH2]; intros chunks1 H1.
  - exists chunks1. by split.
  - cbn in *. destruct (to_chunk o) as [c|]; [|done].
    destruct (to_chunks l1) as [cs|]; [|done]. injection H1 as <-.
    destruct (IH cs eq_refl) as (cs2 & -> & Hcs). exists (c :: cs2). split; [done|].
    by constructor.
  - cbn in *. destruct (to_chunk o1) as [c1|], (to_chunk o2) as [c2|]; try done;
      destruct (to_chunks l) as [cs|]; try done. injection H1 as <-.
    exists (c1 :: c2 :: cs). split; [done|]. apply perm_swap.
  - destruct (IH1 _ H1) as (cs2 & H2 & Hp12).
    destruct (IH2 _ H2) as (cs3 & H3 & Hp23).
    exists cs3. split; [done|]. by etrans.
Qed.

Lemma strictly_sorted_unique {A} (key : A -> Z) (a b : list A) :
  StronglySorted Z.lt (map key a) -> StronglySorted Z.lt (map key b) ->
  Permutation a b -> a = b.
Proof.
  revert b. induction a as [|x a IH]; intros b Ha Hb Hp.
  - by apply Permutation_nil_l in Hp.
  - destruct b as [|y b]; [by apply Permutation_nil_r in Hp|].
    cbn in Ha, Hb. apply StronglySorted_inv in Ha as [Ha Hx].
    apply StronglySorted_inv in Hb as [Hb Hy].
    assert (x = y) as ->.
    { assert (x ∈ y :: b) as Hxin by (rewrite <- Hp; left).
      assert (y ∈ x :: a) as Hyin by (rewrite Hp; left).
      apply elem_of_cons in Hxin as [->|Hxb]; [done|].
      apply elem_of_cons in Hyin as [->|Hya]; [done|].
      exfalso.
      assert (key y < key x).
      { eapply Forall_forall in Hy; [exact Hy|]. by apply list_elem_of_fmap_2. }
      assert (key x < key y).
      { eapply Forall_forall in Hx; [exact Hx|]. by apply list_elem_of_fmap_2. }
      lia. }
    f_equal. apply IH; [done..|]. by apply Permutation_cons_inv in Hp.
Qed.

(** X19.  The order [get_by_source] returns does not depend on the order the
    store returned: for two answers of the store that hold the same objects
    in any two orders, with no chunk index used twice, [get_by_source] gives
    one and the same list. *)
Theorem get_by_source_any_order (fetch1 fetch2 : FetchBySource) (source : string)
    (objects1 objects2 : list Store.Object) (chunks : list SemanticChunk) :
  fetch1 source = Ok objects1 ->
  fetch2 source = Ok objects2 ->
  Permutation objects1 objects2 ->
  to_chunks objects1 = Some chunks ->
  NoDup (map chunk_index chunks) ->
  get_by_source fetch1 source = get_by_source fetch2 source.
Proof.
  intros H1 H2 Hp Hc Hnd.
  destruct (to_chunks_perm _ _ _ Hp Hc) as (chunks2 & Hc2 & Hp2).
  unfold get_by_source. rewrite H1, H2, Hc, Hc2. f_equal.
  apply (strictly_sorted_unique chunk_index).
  - apply sorted_nodup_strict; [apply sort_by_sorted|].
    by rewrite <- (Permutation_map chunk_index (sort_by_perm chunk_index chunks)).
  - apply sorted_nodup_strict; [apply sort_by_sorted|].
    rewrite <- (Permutation_map chunk_index (sort_by_perm chunk_index chunks2)).
    by rewrite <- (Permutation_map chunk_index Hp2).
  - by rewrite <- (sort_by_perm chunk_index chunks), <- (sort_by_perm chunk_index chunks2).
Qed.

Lemma get_by_source_any_order_witness :
  get_by_source (fun _ => Ok shuffled) "doc.pdf"
  = get_by_source (fun _ => Ok (rev shuffled)) "doc.pdf".
Proof.
  apply (get_by_source_any_order (fun _ => Ok shuffled) (fun _ => Ok (rev shuffled))
           "doc.pdf" shuffled (rev shuffled)
           [mkChunk "u2" "third" "" 2 []; mkChunk "u0" "first" "" 0 [];
            mkChunk "u1" "second" "" 1 []]); try reflexivity.
  - apply Permutation_rev.
  - by apply (bool_decide_unpack _).
Defined.

Lemma count_sources_step (chunks : list SemanticChunk) (sources : gmap string Z) (src : string) :
  fold_left
    (fun sources chunk =>
       <[ source chunk := default 0 (sources !! source chunk) + 1 ]> sources)
    chunks sources !! src
  = if decide (from_source src chunks = 0) then sources !! src
    else Some (default 0 (sources !! src) + from_source src chunks).
Proof.
  revert sources. induction chunks as [|c chunks IH]; intros sources; [done|].
  cbn [fold_left]. rewrite IH. unfold from_source. cbn [List.filter].
  destruct (String.eqb_spec (source c) src) as [->|Hne].
  - rewrite lookup_insert_eq. clear IH. cbn [length default]. unfold Datatypes.id.
    generalize (default 0 (sources !! src)).
    generalize (length (List.filter (fun c0 => String.eqb (source c0) src) chunks)).
    intros k d. repeat case_decide; try lia; f_equal; lia.
  - rewrite lookup_insert_ne by done. done.
Qed.

(** X20.  The [sources] map of [get_stats] holds, for every source, the number of
    chunks of that source among the chunks looked at; a source with no chunk
    has no entry. *)
Theorem get_stats_sources (total_count : Result Z) (hybrid : HybridSearch)
    (total : Z) (objects : list Store.Object) (chunks : list SemanticChunk) :
  total_count = Ok total ->
  hybrid "" 100 = Ok objects ->
  to_chunks objects = Some chunks ->
  exists sources,
    get_stats total_count hybrid = StatsReport total sources "CoALA_Paper"
    /\ forall src,
         sources !! src
         = if decide (from_source src chunks = 0) then None
           else Some (from_source src chunks).
Proof.
  intros -> Hq Hc. exists (count_sources chunks). split.
  - unfold get_stats, search. by rewrite Hq, Hc.
  - intros src. unfold count_sources. rewrite count_sources_step.
    rewrite lookup_empty. cbn. by case_decide.
Qed.

Lemma get_stats_sources_witness :
  exists sources,
    get_stats (Ok 3) (fun _ _ => Ok two_sources) = StatsReport 3 sources "CoALA_Paper"
    /\ sources !! "a.pdf" = Some 2 /\ sources !! "b.pdf" = Some 1
    /\ sources !! "c.pdf" = None.
Proof.
  destruct (get_stats_sources (Ok 3) (fun _ _ => Ok two_sources) 3 two_sources
              [mkChunk "u0" "x" "a.pdf" 0 []; mkChunk "u1" "y" "b.pdf" 0 [];
               mkChunk "u2" "z" "a.pdf" 0 []] eq_refl eq_refl eq_refl)
    as (sources & Hrun & Hsrc).
  exists sources. split; [exact Hrun|].
  split; [exact (Hsrc "a.pdf")|]. split; [exact (Hsrc "b.pdf")|exact (Hsrc "c.pdf")].
Defined.

(** X21.  Whatever fails inside [retrieve], [search] or [get_by_source] (the
    store, or an object whose properties have the wrong type), the caller
    sees a [SemanticMemoryError]. *)
Theorem semantic_errors (hybrid : HybridSearch) (fetch : FetchBySource)
    (query : string) (limit : option Z) (n : Z) (e : Exn) :
  (retrieve hybrid query limit = Err e
   \/ search hybrid query n = Err e
   \/ get_by_source fetch query = Err e) ->
  exists msg, e = SemanticMemoryError msg.
Proof.
  unfold retrieve, search, get_by_source, failed.
  intros [H|[H|H]]; repeat case_match; simplify_eq; by eexists.
Qed.

Lemma semantic_errors_witness :
  exists msg, ExternalError "connection refused" <> SemanticMemoryError msg
    /\ retrieve (fun _ _ => Err (ExternalError "connection refused")) "q" None
       = Err (SemanticMemoryError msg).
Proof.
  destruct (semantic_errors (fun _ _ => Err (ExternalError "connection refused"))
              (fun _ => Ok []) "q" None 5
              (SemanticMemoryError "Failed to retrieve semantic memory: connection refused"))
    as [msg Hmsg]; [by left|].
  exists msg. split; [done|]. by rewrite <- Hmsg.
Defined.

End SemanticMore.

(** ** The agent state and the life cycle of a conversation *)

Section StateFacts.
Import State.

Lemma keep_last_snoc {A} (l : list A) (x : A) (k : nat) :
  (1 <= k)%nat ->
  drop (length (drop (length l - k) l ++ [x]) - k) (drop (length l - k) l ++ [x])
  = drop (length (l ++ [x]) - k) (l ++ [x]).
Proof.
  intros Hk. rewrite !length_app, length_drop. simpl.
  destruct (decide (length l < k)%nat) as [Hlt|Hge].
  - replace (length l - k)%nat with 0%nat by lia. simpl.
    by replace (length l - 0 + 1 - k)%nat with (length l + 1 - k)%nat by lia.
  - replace (length l - (length l - k) + 1 - k)%nat with 1%nat by lia.
    rewrite (drop_app_le l [x] (length l + 1 - k)) by lia.
    rewrite drop_app_le by (rewrite length_drop; lia).
    rewrite drop_drop. do 2 f_equal. lia.
Qed.

Lemma add_episodic_history st summary :
  episodic_history (add_episodic st summary)
  = drop (length (episodic_history st ++ [summary]) - 10)
         (episodic_history st ++ [summary]).
Proof.
  unfold add_episodic. cbn [set_history episodic_history].
  destruct (Z.ltb_spec 10 (Z.of_nat (length (episodic_history st ++ [summary])))).
  - exact (slice_from_last _ 10 ltac:(lia)).
  - replace (length (episodic_history st ++ [summary]) - 10)%nat with 0%nat by lia.
    done.
Qed.

(** X22.  The episodic history is a window of 10: after any [add_episodic] it
    holds at most 10 summaries, and after a [reset] followed by any number of
    additions it holds the last 10 summaries added (all of them when there are
    fewer), oldest first. *)
Theorem episodic_history_window (st : AgentState) (summaries : list string) :
  (forall summary, (length (episodic_history (add_episodic st summary)) <= 10)%nat)
  /\ episodic_history (fold_left add_episodic summaries (reset st))
     = drop (length summaries - 10) summaries.
Proof.
  split.
  - intros summary. rewrite add_episodic_history, length_drop. lia.
  - induction summaries as [|s ss IH] using rev_ind; [done|].
    rewrite fold_left_app. cbn [fold_left].
    rewrite add_episodic_history, IH. apply keep_last_snoc. lia.
Qed.

End StateFacts.

Section LifecycleFacts.
Import Working Agent Lifecycle.

(** X27.  [end_conversation] never gets past its first step.  It calls
    [get_messages(exclude_system=True)] without awaiting it and hands the
    coroutine to [episodic_memory.store], which cannot iterate it: whatever
    the agent holds and whatever the model and the store would answer, the
    call raises an [EpisodicMemoryError], nothing is stored, the rules are not
    updated, working memory is not cleared and the state is not reset. *)
Theorem end_conversation_raises (reflection_chain : Episodic.ReflectionChain)
    (llm : Llm.ChatModel) (now_iso : string) (now : Z)
    (a : MemoryAgent State.AgentState) (collection : Store.Collection) :
  end_conversation reflection_chain llm now_iso now a collection
  = (a, collection,
     Err (EpisodicMemoryError
            "Failed to store episodic memory: 'coroutine' object is not iterable")).
Proof. reflexivity. Qed.

End LifecycleFacts.

Section ManagerFacts.
Import Working Agent Lifecycle.

Context {AgentState : Type}.
Variable llm : Llm.ChatModel.
Variable episodic_retrieve : string -> Result (option Episodic.EpisodicMemoryEntry).
Variable hybrid : Semantic.HybridSearch.
Variable provider_initialize : Result unit.
Variable now : Z.

Local Abbreviation process_message :=
  (Agent.process_message AgentState llm
     episodic_retrieve hybrid provider_initialize now).
Local Abbreviation initialize := (Agent.initialize AgentState provider_initialize now).
Local Abbreviation process :=
  (Lifecycle.process AgentState llm
     episodic_retrieve hybrid provider_initialize now).
Local Abbreviation process_all :=
  (Lifecycle.process_all AgentState llm
     episodic_retrieve hybrid provider_initialize now).

Lemma process_step m a user_input :
  messages (process m a user_input).1.1 = messages m + 1
  /\ conversation_id (process m a user_input).1.1 = conversation_id m
  /\ (forall e, (process_message a user_input).2 = Err e ->
      (process m a user_input).2
      = AgentError ("Failed to process message: " +:+ exn_text e)).
Proof.
  unfold Lifecycle.process.
  destruct (Agent.process_message _ _ _ _ _ _ _ _) as [a' [r|e]]; cbn;
    repeat split; by intros ? [= <-].
Qed.

Lemma process_raises m a user_input :
  exists msg, (process m a user_input).2 = AgentError msg.
Proof.
  destruct (process_message_raises llm episodic_retrieve hybrid provider_initialize now
              a user_input) as [[e He] _].
  destruct (process_step m a user_input) as (_ & _ & H).
  rewrite (H e He). by eexists.
Qed.

(** X28.  [process] counts a message before the turn runs: after any sequence of
    calls the counter has grown by the number of calls and the identifier is
    the same; there is one outcome per call and every one is an [AgentError],
    never a reply; and the text of the [AgentError] of a call is
    [Failed to process message: ] followed by the text of the exception that
    [process_message] raised. *)
Theorem process_counts_calls (m : ConversationManager) (a : MemoryAgent AgentState)
    (inputs : list string) :
  messages (process_all m a inputs).1.1 = messages m + Z.of_nat (length inputs)
  /\ conversation_id (process_all m a inputs).1.1 = conversation_id m
  /\ length (process_all m a inputs).2 = length inputs
  /\ Forall (fun reply => exists msg, reply = AgentError msg) (process_all m a inputs).2
  /\ (forall user_input e,
        (process_message a user_input).2 = Err e ->
        (process m a user_input).2
        = AgentError ("Failed to process message: " +:+ exn_text e)).
Proof.
  split; [|split; [|split; [|split]]]; cycle 4.
  { intros user_input e. apply process_step. }
  all: revert m a; induction inputs as [|x inputs IH]; intros m a;
    [cbn; first [lia|done|constructor]|].
  all: cbn [Lifecycle.process_all];
    pose proof (process_step m a x) as (Hm & Hid & _);
    pose proof (process_raises m a x) as Hr;
    destruct (Lifecycle.process _ _ _ _ _ _ m a x) as [[m1 a1] reply];
    specialize (IH m1 a1);
    destruct (Lifecycle.process_all _ _ _ _ _ _ m1 a1 inputs) as [[m2 a2] replies];
    cbn in *.
  - lia.
  - congruence.
  - lia.
  - by constructor.
Qed.

(** X23.  [initialize] is guarded: once it has succeeded, calling it again does
    nothing (the provider is not connected again and the rules are not
    reloaded); when it fails, the agent stays uninitialized. *)
Theorem initialize_once (a : MemoryAgent AgentState) :
  ((initialize a).2 = Ok tt ->
   initialized (initialize a).1 = true
   /\ initialize (initialize a).1 = ((initialize a).1, Ok tt))
  /\ (forall e, (initialize a).2 = Err e -> initialized (initialize a).1 = false).
Proof.
  unfold Agent.initialize.
  destruct (initialized a) eqn:Hi; cbn.
  - rewrite Hi. cbn. split; [done|]. by intros e.
  - destruct provider_initialize as [[]|e0]; cbn.
    + destruct (Procedural.initialize now (procedural_memory a)) as [pm [[]|e1]]; cbn;
        (split; [done|by intros e]).
    + rewrite Hi. split; [done|by intros e].
Qed.

(** X24.  A failing retrieval stops the turn before anything is stored: on an
    initialized agent, when the episodic or the semantic retrieval raises,
    [process_message] raises the same exception and the agent (working memory
    included) is unchanged. *)
Theorem process_message_retrieval_failure (a : MemoryAgent AgentState)
    (user_input : string) (e : Exn) :
  initialized a = true ->
  (episodic_retrieve user_input = Err e
   \/ (exists episodic, episodic_retrieve user_input = Ok episodic)
      /\ Semantic.retrieve hybrid user_input None = Err e) ->
  process_message a user_input = (a, Err e).
Proof.
  intros Hi H. unfold Agent.process_message, Agent.initialize. rewrite Hi. cbn.
  unfold process_ready. destruct H as [->|[[episodic ->] ->]]; done.
Qed.

(** X25.  A turn never gets as far as working memory or the model.  Whatever
    the agent, the input and the collaborators, [process_message] ends in an
    exception and leaves working memory, the state and the log of model calls
    as they were.  On an initialized agent whose two retrievals succeed the
    exception is the [AttributeError] of the missing [_create_system_prompt],
    and the agent is unchanged. *)
Theorem process_message_stops_at_prompt (a : MemoryAgent AgentState)
    (user_input : string) :
  (exists e, (process_message a user_input).2 = Err e)
  /\ working_memory (process_message a user_input).1 = working_memory a
  /\ state (process_message a user_input).1 = state a
  /\ llm_calls (process_message a user_input).1 = llm_calls a
  /\ (initialized a = true ->
      (exists episodic, episodic_retrieve user_input = Ok episodic) ->
      (exists semantic, Semantic.retrieve hybrid user_input None = Ok semantic) ->
      process_message a user_input
      = (a, Err (AttributeError
                   "'MemoryAgent' object has no attribute '_create_system_prompt'"))).
Proof.
  destruct (process_message_raises llm episodic_retrieve hybrid provider_initialize now
              a user_input) as (H1 & H2 & H3 & H4).
  repeat split; try done.
  intros Hi [episodic Hep] [semantic Hsem].
  unfold Agent.process_message, Agent.initialize. rewrite Hi. cbn.
  unfold process_ready. by rewrite Hep, Hsem.
Qed.

(** X29.  The route [clear_memory] empties working memory for [working]; for
    [episodic] it answers [cleared] and changes nothing; for every other
    memory type the answer has status 500, not 400, because the exception
    meant for the client is caught by the handler of the route itself. *)
Theorem clear_memory_types (http_text : Z -> string -> string)
    (a : MemoryAgent AgentState) (memory_type : string) :
  (_messages (working_memory
      (clear_memory AgentState http_text "working" a).1) = []
   /\ (clear_memory AgentState http_text "working" a).2 = Cleared "working")
  /\ clear_memory AgentState http_text "episodic" a = (a, Cleared "episodic")
  /\ (memory_type <> "working" -> memory_type <> "episodic" ->
      clear_memory AgentState http_text memory_type a
      = (a, HTTPException 500 (http_text 400 "Invalid memory type"))).
Proof.
  split; [done|]. split; [done|]. intros Hw He. unfold clear_memory.
  destruct (String.eqb_spec memory_type "working"); [done|].
  by destruct (String.eqb_spec memory_type "episodic").
Qed.

End ManagerFacts.

Section LifecycleRuns.
Import Working Agent Lifecycle.

Lemma initialize_once_witness :
  initialized
    (Agent.initialize unit (Ok tt) 0
       {| state := tt; working_memory := Working.init (Some 50);
          procedural_memory := Procedural.init (Procedural.mkFile None true 0);
          initialized := false; llm_calls := [] |}).1 = true.
Proof.
  destruct (initialize_once (Ok tt) 0
    {| state := tt; working_memory := Working.init (Some 50);
       procedural_memory := Procedural.init (Procedural.mkFile None true 0);
       initialized := false; llm_calls := [] |}) as [H _].
  by destruct H as [H _].
Defined.

Lemma process_message_retrieval_failure_witness :
  process_message unit (Llm.mock "Test response")
    (fun _ => Err (EpisodicMemoryError "Failed to retrieve episodic memory: timeout"))
    (fun _ _ => Ok []) (Ok tt) 0 fresh_agent "Hello"
  = (fresh_agent,
     Err (EpisodicMemoryError "Failed to retrieve episodic memory: timeout")).
Proof.
  apply (process_message_retrieval_failure
           (Llm.mock "Test response")
           (fun _ => Err (EpisodicMemoryError "Failed to retrieve episodic memory: timeout"))
           (fun _ _ => Ok []) (Ok tt) 0 fresh_agent "Hello"); [done|by left].
Defined.

Lemma process_message_stops_at_prompt_witness :
  process_message unit (Llm.mock "Test response")
    (fun _ => Ok None) (fun _ _ => Ok []) (Ok tt) 0 fresh_agent "Hello"
  = (fresh_agent,
     Err (AttributeError
            "'MemoryAgent' object has no attribute '_create_system_prompt'")).
Proof.
  destruct (process_message_stops_at_prompt (Llm.mock "Test response")
              (fun _ => Ok None) (fun _ _ => Ok []) (Ok tt) 0 fresh_agent "Hello")
    as (_ & _ & _ & _ & H).
  apply H; [done|by exists None|by eexists].
Defined.

Lemma process_counts_calls_witness :
  (process unit (Llm.mock "Test response")
     (fun _ => Err (EpisodicMemoryError "Failed to retrieve episodic memory: timeout"))
     (fun _ _ => Ok []) (Ok tt) 0 (new "20240101_000000") fresh_agent "Hello").2
  = AgentError
      "Failed to process message: Failed to retrieve episodic memory: timeout".
Proof.
  destruct (process_counts_calls (Llm.mock "Test response")
              (fun _ => Err (EpisodicMemoryError
                               "Failed to retrieve episodic memory: timeout"))
              (fun _ _ => Ok []) (Ok tt) 0 (new "20240101_000000") fresh_agent [])
    as (_ & _ & _ & _ & H).
  by apply (H "Hello" (EpisodicMemoryError "Failed to retrieve episodic memory: timeout")).
Defined.

Lemma clear_memory_types_witness :
  clear_memory unit (fun code detail => Py.str_of_int code +:+ ": " +:+ detail)
    "semantic" fresh_agent
  = (fresh_agent, HTTPException 500 "400: Invalid memory type").
Proof.
  destruct (clear_memory_types (fun code detail => Py.str_of_int code +:+ ": " +:+ detail)
              fresh_agent "semantic") as (_ & _ & H).
  by apply H.
Defined.

End LifecycleRuns.
